(** * ui-ruler: the Ruler widget of [src/main.ts]

    The repository carries two copies of the [Ruler] class that differ in
    three methods ([getPixelsPerUnit], [drawTicks], [drawMousePosition]):

    - [Hardcoded] (lines 1-364): the copy whose scale factors are constants
      derived from 60 pixels per inch and whose tick routine has a separate
      branch for the unit ["in"];
    - [Measured] (lines 365-659): the copy whose scale factors come from
      [calcPixelsPerMM] and whose tick routine picks the tick type with
      [findIndex].

    Both are embedded below.  The methods the copies share word for word
    ([renderRuler], [initCanvas], the pointer handlers, [refresh], the
    constructor) are written once, in a section over the three methods
    that differ.

    Conventions of the embedding.

    - A JavaScript [number] is a rational ([Q]) and arithmetic is exact;
      the operators that can leave the finite numbers ([/] and [%]) return
      an extended result.  Rounding of binary64 is not part of the model.
    - The 2D context is a recorder: a method draws by appending to the list
      of [command]s it returns.
    - What the class reads from the page (the parent element of the canvas,
      its client size and bounding rectangle, the width of the 1mm probe)
      is passed in as a [Dom] value.  A 2D context and [document.body] are
      taken to exist.
    - A [for] loop runs on fuel; [Unfinished] is the result of a run whose
      fuel was used up before the loop condition turned false. *)

From Stdlib Require Import ZArith QArith Qround Qabs List String Ascii Bool.
From Stdlib Require Import Lia Lqa DecimalString.
From Stdlib Require Import DecimalZ DecimalPos.
Import ListNotations.

Open Scope Q_scope.

(** ** JavaScript numbers and their built-ins *)

Module JS.

Definition number := Q.

(** [a < b], [a <= b] and [a === b] on finite numbers. *)
Definition lt (a b : number) : bool := negb (Qle_bool b a).
Definition le (a b : number) : bool := Qle_bool a b.
Definition gt (a b : number) : bool := lt b a.
Definition strict_eq (a b : number) : bool := Qeq_bool a b.

(** Results of [/] and [%]. *)
Inductive value : Type :=
| Finite (q : number)
| Infinity
| NegInfinity
| NaN.

(** [a / b]. *)
Definition div (a b : number) : value :=
  if strict_eq b 0 then
    if strict_eq a 0 then NaN
    else if lt 0 a then Infinity else NegInfinity
  else Finite (a / b).

(** Truncation towards zero. *)
Definition trunc (q : number) : Z := Z.quot (Qnum q) (Zpos (Qden q)).

(** [a % b]: the remainder has the sign of the dividend; [a % 0] is NaN. *)
Definition rem (a b : number) : value :=
  if strict_eq b 0 then NaN
  else Finite (a - b * inject_Z (trunc (a / b))).

(** [v === 0] for a result [v]; NaN is equal to nothing. *)
Definition is_zero (v : value) : bool :=
  match v with
  | Finite q => strict_eq q 0
  | _ => false
  end.

(** [a || b] where [a] may be [undefined]: [undefined], [0] are falsy. *)
Definition or_else (a : option number) (b : number) : number :=
  match a with
  | Some x => if strict_eq x 0 then b else x
  | None => b
  end.

(** Decimal digits of an integer, with a leading [-] when negative. *)
Definition decimal (z : Z) : string := NilZero.string_of_int (Z.to_int z).

Definition is_integer (q : number) : bool :=
  strict_eq q (inject_Z (Qfloor q)).

Definition pow10 (e : Z) : number := Qpower 10 e.

Fixpoint rev_string (s acc : string) : string :=
  match s with
  | EmptyString => acc
  | String c s' => rev_string s' (String c acc)
  end.

Fixpoint drop_zeros (s : string) : string :=
  match s with
  | String "0"%char s' => drop_zeros s'
  | _ => s
  end.

Definition strip_trailing_zeros (s : string) : string :=
  rev_string (drop_zeros (rev_string s EmptyString)) EmptyString.

Fixpoint zeros (n : nat) : string :=
  match n with
  | O => EmptyString
  | S n' => String "0"%char (zeros n')
  end.

(** The number of times [a] (with [0 < a < 1]) must be multiplied by ten
    to reach [1]. *)
Fixpoint scale_up (fuel : nat) (a : number) (c : Z) : Z :=
  match fuel with
  | O => c
  | S fuel' => if le 1 a then c else scale_up fuel' (a * 10) (c + 1)
  end.

(** The [n] of Number::toString: [10^(n-1) <= a < 10^n] for [0 < a]. *)
Definition exponent10 (a : number) : Z :=
  if le 1 a then Z.of_nat (String.length (decimal (Qfloor a)))
  else (1 - scale_up 400 a 0)%Z.

Definition exponent_suffix (n : Z) : string :=
  let e := (n - 1)%Z in
  ("e" ++ (if (e <? 0)%Z then "-" else "+") ++ decimal (Z.abs e))%string.

(** Number::toString of a positive number that is not an integer below
    [10^21]: the digits [s] are the exact decimal expansion, cut after 21
    significant digits where it does not end earlier. *)
Definition digits_toString (a : number) : string :=
  let n := exponent10 a in
  let s := strip_trailing_zeros (decimal (Qfloor (a * pow10 (21 - n)))) in
  let k := Z.of_nat (String.length s) in
  if ((k <=? n) && (n <=? 21))%Z then
    (s ++ zeros (Z.to_nat (n - k)))%string
  else if ((0 <? n) && (n <=? 21))%Z then
    (substring 0 (Z.to_nat n) s ++ "." ++
     substring (Z.to_nat n) (Z.to_nat (k - n)) s)%string
  else if ((-6 <? n) && (n <=? 0))%Z then
    ("0." ++ zeros (Z.to_nat (- n)) ++ s)%string
  else if (k =? 1)%Z then
    (s ++ exponent_suffix n)%string
  else
    (substring 0 1 s ++ "." ++ substring 1 (Z.to_nat (k - 1)) s ++
     exponent_suffix n)%string.

(** [String(x)] for a finite number [x]. *)
Definition toString (x : number) : string :=
  if is_integer x && lt (Qabs x) (pow10 21) then decimal (Qfloor x)
  else ((if lt x 0 then "-" else "") ++ digits_toString (Qabs x))%string.

(** [v.toFixed(0)]: round to the nearest integer, a tie going away from
    zero; the sign is printed from the unrounded number. *)
Definition toFixed0 (v : value) : string :=
  match v with
  | NaN => "NaN"
  | Infinity => "Infinity"
  | NegInfinity => "-Infinity"
  | Finite x =>
      if le (pow10 21) (Qabs x) then toString x
      else ((if lt x 0 then "-" else "") ++
            decimal (Qfloor (Qabs x + 1 / 2)))%string
  end.

(** [xs.findIndex(p)], [-1] when no element satisfies [p]. *)
Fixpoint findIndex_from {A : Type} (p : A -> bool) (xs : list A) (k : Z) : Z :=
  match xs with
  | [] => (-1)%Z
  | x :: xs' => if p x then k else findIndex_from p xs' (k + 1)%Z
  end.

Definition findIndex {A : Type} (p : A -> bool) (xs : list A) : Z :=
  findIndex_from p xs 0%Z.

End JS.

(** ** Configuration and instance state *)

Inductive Orientation : Type := horizontal | vertical.
Inductive Position : Type := inside | outside.

(** [RulerOptions] after the merge with the defaults: every field present. *)
Record RulerOptions : Type := {
  unit : string;
  tickMajor : Q;
  tickMinor : Q;
  tickMicro : Q;
  showLabel : bool;
  startX : Q;
  startY : Q;
  arrowStyle : string;
  showMousePosition : bool;
  position : Position;
  orientation : Orientation;
  rulerThickness : Q
}.

(** [RulerOptions] as the caller passes it: every field optional. *)
Record PartialOptions : Type := {
  unit_opt : option string;
  tickMajor_opt : option Q;
  tickMinor_opt : option Q;
  tickMicro_opt : option Q;
  showLabel_opt : option bool;
  startX_opt : option Q;
  startY_opt : option Q;
  arrowStyle_opt : option string;
  showMousePosition_opt : option bool;
  position_opt : option Position;
  orientation_opt : option Orientation;
  rulerThickness_opt : option Q
}.

Definition no_options : PartialOptions :=
  {| unit_opt := None; tickMajor_opt := None; tickMinor_opt := None;
     tickMicro_opt := None; showLabel_opt := None; startX_opt := None;
     startY_opt := None; arrowStyle_opt := None;
     showMousePosition_opt := None; position_opt := None;
     orientation_opt := None; rulerThickness_opt := None |}.

Definition defaultOptions : RulerOptions :=
  {| unit := "px";
     tickMajor := 100;
     tickMinor := 20;
     tickMicro := 10;
     showLabel := true;
     startX := 0;
     startY := 0;
     arrowStyle := "line";
     showMousePosition := true;
     position := outside;
     orientation := horizontal;
     rulerThickness := 30 |}.

Definition or_default {A : Type} (o : option A) (d : A) : A :=
  match o with Some a => a | None => d end.

(** [{ ...defaults, ...options }]. *)
Definition merge (defaults : RulerOptions) (o : PartialOptions)
  : RulerOptions :=
  {| unit := or_default (unit_opt o) (unit defaults);
     tickMajor := or_default (tickMajor_opt o) (tickMajor defaults);
     tickMinor := or_default (tickMinor_opt o) (tickMinor defaults);
     tickMicro := or_default (tickMicro_opt o) (tickMicro defaults);
     showLabel := or_default (showLabel_opt o) (showLabel defaults);
     startX := or_default (startX_opt o) (startX defaults);
     startY := or_default (startY_opt o) (startY defaults);
     arrowStyle := or_default (arrowStyle_opt o) (arrowStyle defaults);
     showMousePosition :=
       or_default (showMousePosition_opt o) (showMousePosition defaults);
     position := or_default (position_opt o) (position defaults);
     orientation := or_default (orientation_opt o) (orientation defaults);
     rulerThickness :=
       or_default (rulerThickness_opt o) (rulerThickness defaults) |}.

Record Size : Type := { width : Q; height : Q }.

(** The two attributes of the canvas element that the class assigns, as
    assigned: the coercion of the attribute to an integer is left out. *)
Record Canvas : Type := { canvas_width : Q; canvas_height : Q }.

Record Ruler : Type := {
  options : RulerOptions;
  canvas : Canvas;
  size : Size;
  unitDiv : Q;
  mouseX : Q;
  mouseY : Q
}.

Definition set_geometry (this : Ruler) (c : Canvas) (s : Size) : Ruler :=
  {| options := options this; canvas := c; size := s;
     unitDiv := unitDiv this; mouseX := mouseX this; mouseY := mouseY this |}.

Definition set_unitDiv (this : Ruler) (u : Q) : Ruler :=
  {| options := options this; canvas := canvas this; size := size this;
     unitDiv := u; mouseX := mouseX this; mouseY := mouseY this |}.

Definition set_mouse (this : Ruler) (x y : Q) : Ruler :=
  {| options := options this; canvas := canvas this; size := size this;
     unitDiv := unitDiv this; mouseX := x; mouseY := y |}.

(** ** The page *)

(** The container: its client size and the origin of its bounding
    rectangle. *)
Record Element : Type := {
  clientWidth : Z;
  clientHeight : Z;
  rect_left : Q;
  rect_top : Q
}.

(** What a call reads from the page: [canvas.parentElement] ([None] when
    the canvas is detached) and the [offsetWidth] of a [div] of width
    [1mm] appended to the body. *)
Record Dom : Type := {
  parentElement : option Element;
  offsetWidth : N
}.

Record MouseEvent : Type := { clientX : Q; clientY : Q }.

(** ** The drawing context as a recorder *)

Inductive command : Type :=
| clearRect (x y w h : Q)
| beginPath
| moveTo (x y : Q)
| lineTo (x y : Q)
| stroke
| fillText (text : string) (x y : Q)
| set_strokeStyle (style : string)
| set_fillStyle (style : string).

(** ** Results of a call *)

Inductive outcome (A : Type) : Type :=
| Returned (a : A)
| Thrown
| Unfinished.

Arguments Returned {A} a.
Arguments Thrown {A}.
Arguments Unfinished {A}.

Definition bind {A B : Type} (c : outcome A) (k : A -> outcome B) : outcome B :=
  match c with
  | Returned a => k a
  | Thrown => Thrown
  | Unfinished => Unfinished
  end.

Notation "x <- c ;; k" := (bind c (fun x => k))
  (at level 61, c at next level, right associativity).

(** [for (let i = start; i < length; i += step) body(i)]; a [continue] is a
    body that draws nothing. *)
Fixpoint for_loop (fuel : nat) (i length step : Q)
    (body : Q -> list command) : outcome (list command) :=
  if JS.lt i length then
    match fuel with
    | O => Unfinished
    | S fuel' =>
        rest <- for_loop fuel' (i + step) length step body ;;
        Returned (body i ++ rest)
    end
  else Returned [].

(** [calcPixelsPerMM], present in both copies: the width read off a [div]
    of width [1mm] that is appended to the body and removed again. *)
Definition calcPixelsPerMM (dom : Dom) : Q :=
  let pixelsPerMM := inject_Z (Z.of_N (offsetWidth dom)) in
  pixelsPerMM.

Definition double_quote : string := String "034"%char EmptyString.

(** ** The methods shared by the two copies *)

Section Class.

Variable getPixelsPerUnit : Dom -> Ruler -> Q.
Variable drawTicks :
  nat -> Ruler -> Orientation -> Q -> Q -> Q -> Q -> Q -> bool ->
  outcome (list command).
Variable drawMousePosition : Ruler -> list command.

Definition renderRuler (fuel : nat) (this : Ruler) : outcome (list command) :=
  let o := options this in
  ticks <-
    match orientation o with
    | horizontal =>
        drawTicks fuel this horizontal (width (size this))
          (tickMajor o) (tickMinor o) (tickMicro o) (startX o) (showLabel o)
    | vertical =>
        drawTicks fuel this vertical (height (size this))
          (tickMajor o) (tickMinor o) (tickMicro o) (startY o) (showLabel o)
    end ;;
  Returned
    (clearRect 0 0 (width (size this)) (height (size this)) :: ticks ++
     (if showMousePosition o then drawMousePosition this else [])).

(** Every method below first assigns instance fields and then renders;
    rendering reads the fields and writes none.  A call therefore yields
    the instance as its assignments left it, together with what the
    render drew if it ran to its end. *)

Definition initCanvas (fuel : nat) (dom : Dom) (this : Ruler)
  : Ruler * outcome (list command) :=
  let this := set_unitDiv this (getPixelsPerUnit dom this) in
  (this, renderRuler fuel this).

(** [new Ruler(container, options)].  [setPosition] and the registration
    of the two listeners follow the first render; they touch the style of
    the canvas and the listener table of the container, which no method
    reads, and are left out. *)
Definition constructor (fuel : nat) (dom : Dom) (container : Element)
    (opts : PartialOptions) : Ruler * outcome (list command) :=
  let o := merge defaultOptions opts in
  let thickness := rulerThickness o in
  let sz :=
    match orientation o with
    | horizontal =>
        {| width := inject_Z (clientWidth container); height := thickness |}
    | vertical =>
        {| width := thickness; height := inject_Z (clientHeight container) |}
    end in
  let this :=
    {| options := o;
       canvas := {| canvas_width := width sz; canvas_height := height sz |};
       size := sz;
       unitDiv := 1;
       mouseX := 0;
       mouseY := 0 |} in
  initCanvas fuel dom this.

(** [parentElement!.getBoundingClientRect()] throws on a detached
    canvas. *)
Definition handleMouseMove (fuel : nat) (dom : Dom) (event : MouseEvent)
    (this : Ruler) : Ruler * outcome (list command) :=
  match parentElement dom with
  | None => (this, Thrown)
  | Some rect =>
      let this :=
        set_mouse this (clientX event - rect_left rect)
                       (clientY event - rect_top rect) in
      if showMousePosition (options this)
      then (this, renderRuler fuel this)
      else (this, Returned [])
  end.

Definition handleMouseLeave (fuel : nat) (this : Ruler)
  : Ruler * outcome (list command) :=
  let this := set_mouse this (-1) (-1) in
  (this, renderRuler fuel this).

Definition refresh (fuel : nat) (dom : Dom) (this : Ruler)
  : Ruler * outcome (list command) :=
  let thickness := rulerThickness (options this) in
  let this :=
    match orientation (options this) with
    | horizontal =>
        let w :=
          JS.or_else
            (option_map (fun p => inject_Z (clientWidth p))
               (parentElement dom))
            (width (size this)) in
        set_geometry this
          {| canvas_width := w; canvas_height := thickness |}
          {| width := w; height := height (size this) |}
    | vertical =>
        let h :=
          JS.or_else
            (option_map (fun p => inject_Z (clientHeight p))
               (parentElement dom))
            (height (size this)) in
        set_geometry this
          {| canvas_width := thickness; canvas_height := h |}
          {| width := width (size this); height := h |}
    end in
  let this := set_unitDiv this (getPixelsPerUnit dom this) in
  (this, renderRuler fuel this).

End Class.

(** ** The copy with constant scale factors *)

Module Hardcoded.

Definition getPixelsPerUnit (dom : Dom) (this : Ruler) : Q :=
  let u := unit (options this) in
  if (u =? "px")%string then 1
  else if (u =? "mm")%string then 60 / 25.4
  else if (u =? "cm")%string then (60 / 25.4) * 10
  else if (u =? "in")%string then 60
  else 1.

Definition tickHeights : list Q := [15; 10; 5].

Definition inchLabel (i : Q) : string :=
  (JS.toFixed0 (JS.div i 60) ++ double_quote)%string.

Definition drawTicks (fuel : nat) (this : Ruler) (orientation : Orientation)
    (length major minor micro start : Q) (showLabel : bool)
  : outcome (list command) :=
  let tickHeight_at k := nth k tickHeights 0 in
  if (unit (options this) =? "in")%string then
    majors <-
      for_loop fuel start length major (fun i =>
        match orientation with
        | horizontal =>
            [moveTo i 0; lineTo i (tickHeight_at 0%nat);
             fillText (inchLabel i) (i + 2) (tickHeight_at 0%nat + 10)]
        | vertical =>
            [moveTo 0 i; lineTo (tickHeight_at 1%nat) i;
             fillText (inchLabel i) (tickHeight_at 0%nat + 2) (i + 10)]
        end) ;;
    minors <-
      for_loop fuel start length minor (fun i =>
        if JS.is_zero (JS.rem i major) then []
        else
          match orientation with
          | horizontal => [moveTo i 0; lineTo i (tickHeight_at 1%nat)]
          | vertical => [moveTo 0 i; lineTo (tickHeight_at 1%nat) i]
          end) ;;
    micros <-
      for_loop fuel start length micro (fun i =>
        if JS.is_zero (JS.rem i major) then []
        else if JS.is_zero (JS.rem i minor) then []
        else
          match orientation with
          | horizontal => [moveTo i 0; lineTo i (tickHeight_at 2%nat)]
          | vertical => [moveTo 0 i; lineTo (tickHeight_at 2%nat) i]
          end) ;;
    Returned (beginPath :: majors ++ minors ++ micros ++ [stroke])
  else
    ticks <-
      for_loop fuel start length (unitDiv this) (fun i =>
        let tickTypeIndex :=
          if JS.is_zero (JS.rem i major) && JS.gt major 0 then 0%Z
          else if JS.is_zero (JS.rem i minor) && JS.gt minor 0 then 1%Z
          else if JS.is_zero (JS.rem i micro) && JS.gt micro 0 then 2%Z
          else (-1)%Z in
        if (tickTypeIndex =? -1)%Z then []
        else
          let tickHeight := tickHeight_at (Z.to_nat tickTypeIndex) in
          match orientation with
          | horizontal =>
              [moveTo i 0; lineTo i tickHeight] ++
              (if showLabel && (tickTypeIndex =? 0)%Z then
                 [fillText (JS.toString i) (i + 2) (tickHeight + 10)]
               else if showLabel && (tickTypeIndex =? 0)%Z then
                 [fillText (JS.toString i) (i + 2) (tickHeight + 10)]
               else [])
          | vertical =>
              [moveTo 0 i; lineTo tickHeight i] ++
              (if showLabel && (tickTypeIndex =? 0)%Z then
                 [fillText (JS.toString i) (tickHeight + 2) (i + 10)]
               else if showLabel && (tickTypeIndex =? 0)%Z then
                 [fillText (JS.toString i) (tickHeight + 2) (i + 10)]
               else [])
          end) ;;
    Returned (beginPath :: ticks ++ [stroke]).

Definition drawMousePosition (this : Ruler) : list command :=
  if JS.le (mouseX this) 0 || JS.le (mouseY this) 0 then []
  else
    let positionInUnits :=
      match orientation (options this) with
      | horizontal => JS.toFixed0 (JS.div (mouseX this) (unitDiv this))
      | vertical => JS.toFixed0 (JS.div (mouseY this) (unitDiv this))
      end in
    let positionText :=
      match orientation (options this) with
      | horizontal => ("X: " ++ positionInUnits ++ unit (options this))%string
      | vertical => ("Y: " ++ positionInUnits ++ unit (options this))%string
      end in
    [beginPath; set_strokeStyle "rgba(0, 0, 0, 0.3)"] ++
    match orientation (options this) with
    | horizontal =>
        [moveTo (mouseX this) 0; lineTo (mouseX this) (height (size this))]
    | vertical =>
        [moveTo 0 (mouseY this); lineTo (width (size this)) (mouseY this)]
    end ++
    [stroke; set_fillStyle "black"] ++
    match orientation (options this) with
    | horizontal => [fillText positionText (mouseX this + 5) 15]
    | vertical => [fillText positionText 5 (mouseY this + 10)]
    end.

Definition renderRuler := renderRuler drawTicks drawMousePosition.
Definition initCanvas :=
  initCanvas getPixelsPerUnit drawTicks drawMousePosition.
Definition constructor :=
  constructor getPixelsPerUnit drawTicks drawMousePosition.
Definition handleMouseMove := handleMouseMove drawTicks drawMousePosition.
Definition handleMouseLeave := handleMouseLeave drawTicks drawMousePosition.
Definition refresh := refresh getPixelsPerUnit drawTicks drawMousePosition.

End Hardcoded.

(** ** The copy that measures the scale factor *)

Module Measured.

Definition getPixelsPerUnit (dom : Dom) (this : Ruler) : Q :=
  let u := unit (options this) in
  if (u =? "px")%string then 1
  else if (u =? "mm")%string then calcPixelsPerMM dom
  else if (u =? "cm")%string then calcPixelsPerMM dom * 10
  else if (u =? "in")%string then calcPixelsPerMM dom * 25.4
  else 1.

Definition tickHeights : list Q := [15; 10; 5].

Definition drawTicks (fuel : nat) (this : Ruler) (orientation : Orientation)
    (length major minor micro start : Q) (showLabel : bool)
  : outcome (list command) :=
  let tickPositions := [major; minor; micro] in
  ticks <-
    for_loop fuel start length (unitDiv this) (fun i =>
      let tickTypeIndex :=
        JS.findIndex
          (fun tick => JS.is_zero (JS.rem i tick) && JS.gt tick 0)
          tickPositions in
      if (tickTypeIndex =? -1)%Z then []
      else
        let tickHeight := nth (Z.to_nat tickTypeIndex) tickHeights 0 in
        match orientation with
        | horizontal =>
            [moveTo i 0; lineTo i tickHeight] ++
            (if showLabel && (tickTypeIndex =? 0)%Z then
               [fillText (JS.toString i) (i + 2) (tickHeight + 10)]
             else [])
        | vertical =>
            [moveTo 0 i; lineTo tickHeight i] ++
            (if showLabel && (tickTypeIndex =? 0)%Z then
               [fillText (JS.toString i) (tickHeight + 2) (i + 10)]
             else [])
        end) ;;
  Returned (beginPath :: ticks ++ [stroke]).

Definition drawMousePosition (this : Ruler) : list command :=
  if JS.lt (mouseX this) 0 || JS.lt (mouseY this) 0 then []
  else
    let positionInUnits :=
      match orientation (options this) with
      | horizontal => JS.toFixed0 (JS.div (mouseX this) (unitDiv this))
      | vertical => JS.toFixed0 (JS.div (mouseY this) (unitDiv this))
      end in
    let positionText :=
      match orientation (options this) with
      | horizontal => ("X: " ++ positionInUnits ++ unit (options this))%string
      | vertical => ("Y: " ++ positionInUnits ++ unit (options this))%string
      end in
    [beginPath; set_strokeStyle "rgba(0, 0, 0, 0.3)"] ++
    match orientation (options this) with
    | horizontal =>
        [moveTo (mouseX this) 0; lineTo (mouseX this) (height (size this))]
    | vertical =>
        [moveTo 0 (mouseY this); lineTo (width (size this)) (mouseY this)]
    end ++
    [stroke; set_fillStyle "black"] ++
    match orientation (options this) with
    | horizontal => [fillText positionText (mouseX this + 5) 15]
    | vertical => [fillText positionText 5 (mouseY this + 10)]
    end.

Definition renderRuler := renderRuler drawTicks drawMousePosition.
Definition initCanvas :=
  initCanvas getPixelsPerUnit drawTicks drawMousePosition.
Definition constructor :=
  constructor getPixelsPerUnit drawTicks drawMousePosition.
Definition handleMouseMove := handleMouseMove drawTicks drawMousePosition.
Definition handleMouseLeave := handleMouseLeave drawTicks drawMousePosition.
Definition refresh := refresh getPixelsPerUnit drawTicks drawMousePosition.

End Measured.

(** ** Sequences of calls on one instance *)

Section Reachability.

Variable getPixelsPerUnit : Dom -> Ruler -> Q.
Variable drawTicks :
  nat -> Ruler -> Orientation -> Q -> Q -> Q -> Q -> Q -> bool ->
  outcome (list command).
Variable drawMousePosition : Ruler -> list command.

(** The pages the calls may meet. *)
Variable admissible : Dom -> Prop.

(** The instances a program can hold: built by the constructor and then
    driven by pointer events and [refresh], each call having returned
    before the next one starts. *)
Inductive reachable : Ruler -> Prop :=
| reach_constructor fuel dom container opts this out :
    admissible dom ->
    constructor getPixelsPerUnit drawTicks drawMousePosition
      fuel dom container opts = (this, Returned out) ->
    reachable this
| reach_mousemove fuel dom event this this' out :
    reachable this ->
    admissible dom ->
    handleMouseMove drawTicks drawMousePosition fuel dom event this
      = (this', Returned out) ->
    reachable this'
| reach_mouseleave fuel this this' out :
    reachable this ->
    handleMouseLeave drawTicks drawMousePosition fuel this
      = (this', Returned out) ->
    reachable this'
| reach_refresh fuel dom this this' out :
    reachable this ->
    admissible dom ->
    refresh getPixelsPerUnit drawTicks drawMousePosition fuel dom this
      = (this', Returned out) ->
    reachable this'.

End Reachability.

Definition any_page (dom : Dom) : Prop := True.

(** Pages on which the 1mm probe has a positive width. *)
Definition probe_positive (dom : Dom) : Prop := (0 < offsetWidth dom)%N.

(** ** Runs *)

Definition finishes {A : Type} (run : nat -> outcome A) : Prop :=
  exists fuel a, run fuel = Returned a.

Definition never_returns {A : Type} (run : nat -> outcome A) : Prop :=
  forall fuel, run fuel = Unfinished.

(** ** What a drawing shows *)

(** A straight stroke: the point of a [moveTo] and the point of the
    [lineTo] that follows it. *)
Definition segment : Type := (Q * Q) * (Q * Q).

Fixpoint segments (cs : list command) : list segment :=
  match cs with
  | [] => []
  | moveTo a b :: cs' =>
      match cs' with
      | lineTo c d :: _ => ((a, b), (c, d)) :: segments cs'
      | _ => segments cs'
      end
  | _ :: cs' => segments cs'
  end.

(** The texts of a drawing with their anchor points. *)
Fixpoint labels (cs : list command) : list (string * (Q * Q)) :=
  match cs with
  | [] => []
  | fillText t x y :: cs' => (t, (x, y)) :: labels cs'
  | _ :: cs' => labels cs'
  end.

(** Only the cursor indicator changes the stroke style. *)
Definition is_set_strokeStyle (c : command) : bool :=
  match c with set_strokeStyle _ => true | _ => false end.

Definition indicator_drawn (cs : list command) : bool :=
  existsb is_set_strokeStyle cs.

(** ** The tick layout in the words of the specification *)

Inductive TickType : Type := Major | Minor | Micro.

Definition tick_length (t : TickType) : Q :=
  match t with Major => 15 | Minor => 10 | Micro => 5 end.

(** [i] is evenly divisible by [d]. *)
Definition evenly_divisible (i d : Q) : Prop :=
  exists k : Z, i == inject_Z k * d.

Definition divides_b (d i : Q) : bool := JS.is_integer (i / d).

(** A tick category is enabled when its interval is positive. *)
Definition matches (interval i : Q) : bool :=
  JS.gt interval 0 && divides_b interval i.

(** Priority: major over minor over micro. *)
Definition spec_tick_type (major minor micro i : Q) : option TickType :=
  if matches major i then Some Major
  else if matches minor i then Some Minor
  else if matches micro i then Some Micro
  else None.

(** The coordinates [start], [start + step], ... below [length]. *)
Definition iterations (start length step : Q) : nat :=
  if JS.lt start length
  then Z.to_nat (Qceiling ((length - start) / step))
  else O.

Fixpoint positions_from (n : nat) (i step : Q) : list Q :=
  match n with
  | O => []
  | S n' => i :: positions_from n' (i + step) step
  end.

Definition spec_positions (start length step : Q) : list Q :=
  positions_from (iterations start length step) start step.

(** A tick of type [t] at [i]: from the baseline, perpendicular to the
    ruler, as long as the type says. *)
Definition tick_segment (o : Orientation) (i : Q) (t : TickType) : segment :=
  match o with
  | horizontal => ((i, 0), (i, tick_length t))
  | vertical => ((0, i), (tick_length t, i))
  end.

Definition spec_ticks (o : Orientation)
    (length major minor micro start step : Q) : list segment :=
  flat_map
    (fun i =>
       match spec_tick_type major minor micro i with
       | Some t => [tick_segment o i t]
       | None => []
       end)
    (spec_positions start length step).

Definition is_major (major minor micro i : Q) : bool :=
  match spec_tick_type major minor micro i with
  | Some Major => true
  | _ => false
  end.

(** The label of the major tick at [i]. *)
Definition tick_label (o : Orientation) (i : Q) : string * (Q * Q) :=
  match o with
  | horizontal => (JS.toString i, (i + 2, 25))
  | vertical => (JS.toString i, (17, i + 10))
  end.


(** The coordinate of a point along the axis of the ruler. *)
Definition along_axis (o : Orientation) (p : Q * Q) : Q :=
  match o with horizontal => fst p | vertical => snd p end.

(** ** The cursor indicator in the words of the specification *)

(** The coordinate the indicator reports: along the axis of the ruler. *)
Definition tracked (this : Ruler) : Q :=
  match orientation (options this) with
  | horizontal => mouseX this
  | vertical => mouseY this
  end.

Definition axis_name (o : Orientation) : string :=
  match o with horizontal => "X: " | vertical => "Y: " end.

(** Rounding to the nearest integer, a tie going up. *)
Definition round_nearest (q : Q) : Z := Qfloor (q + 1 / 2).

Definition spec_cursor_text (this : Ruler) : string :=
  (axis_name (orientation (options this)) ++
   JS.decimal (round_nearest (tracked this / unitDiv this)) ++
   unit (options this))%string.

(** Guide line across the ruler at the tracked coordinate, then the text. *)
Definition spec_indicator (this : Ruler) : list command :=
  match orientation (options this) with
  | horizontal =>
      [beginPath; set_strokeStyle "rgba(0, 0, 0, 0.3)";
       moveTo (mouseX this) 0; lineTo (mouseX this) (height (size this));
       stroke; set_fillStyle "black";
       fillText (spec_cursor_text this) (mouseX this + 5) 15]
  | vertical =>
      [beginPath; set_strokeStyle "rgba(0, 0, 0, 0.3)";
       moveTo 0 (mouseY this); lineTo (width (size this)) (mouseY this);
       stroke; set_fillStyle "black";
       fillText (spec_cursor_text this) 5 (mouseY this + 10)]
  end.


(** ** Instances used in the examples *)

Definition page (w h : Z) (probe : N) : Dom :=
  {| parentElement :=
       Some {| clientWidth := w; clientHeight := h;
               rect_left := 0; rect_top := 0 |};
     offsetWidth := probe |}.

Definition box (w h : Z) : Element :=
  {| clientWidth := w; clientHeight := h; rect_left := 0; rect_top := 0 |}.

Definition with_ticks (u : string) (o : Orientation) (major minor micro : Q)
  : PartialOptions :=
  {| unit_opt := Some u; tickMajor_opt := Some major;
     tickMinor_opt := Some minor; tickMicro_opt := Some micro;
     showLabel_opt := Some true; startX_opt := None; startY_opt := None;
     arrowStyle_opt := None; showMousePosition_opt := Some true;
     position_opt := None; orientation_opt := Some o;
     rulerThickness_opt := Some 30 |}.

Definition instance (u : string) (o : Orientation) (major minor micro : Q)
    (w h scale x y : Q) : Ruler :=
  {| options := merge defaultOptions (with_ticks u o major minor micro);
     canvas := {| canvas_width := w; canvas_height := h |};
     size := {| width := w; height := h |};
     unitDiv := scale;
     mouseX := x;
     mouseY := y |}.

(** ** The general tick path in one piece *)

(** What the loop body draws at [i]: the tick of the type the priority
    rule gives, and the label when the tick is major and labels are on. *)
Definition draw_tick (o : Orientation) (showLabel : bool)
    (major minor micro i : Q) : list command :=
  match spec_tick_type major minor micro i with
  | None => []
  | Some t =>
      match o with
      | horizontal => [moveTo i 0; lineTo i (tick_length t)]
      | vertical => [moveTo 0 i; lineTo (tick_length t) i]
      end ++
      (if showLabel && is_major major minor micro i
       then [fillText (fst (tick_label o i))
               (fst (snd (tick_label o i))) (snd (snd (tick_label o i)))]
       else [])
  end.

Definition layout (o : Orientation) (showLabel : bool)
    (length major minor micro start step : Q) : list command :=
  beginPath ::
  flat_map (draw_tick o showLabel major minor micro)
    (spec_positions start length step) ++ [stroke].

(** The test of the loop body: [i % tick === 0 && tick > 0]. *)
Definition tick_test (i tick : Q) : bool :=
  JS.is_zero (JS.rem i tick) && JS.gt tick 0.

Definition general_path (fuel : nat) (o : Orientation) (showLabel : bool)
    (length major minor micro start step : Q) : outcome (list command) :=
  ticks <-
    for_loop fuel start length step (draw_tick o showLabel major minor micro) ;;
  Returned (beginPath :: ticks ++ [stroke]).

(** A run that ends, by returning or by throwing. *)
Definition terminates {A : Type} (run : nat -> outcome A) : Prop :=
  exists fuel, run fuel <> Unfinished.

(** The [drawTicks] call that [renderRuler] makes. *)
Definition tick_run
    (drawTicks :
       nat -> Ruler -> Orientation -> Q -> Q -> Q -> Q -> Q -> bool ->
       outcome (list command))
    (fuel : nat) (this : Ruler) : outcome (list command) :=
  let o := options this in
  match orientation o with
  | horizontal =>
      drawTicks fuel this horizontal (width (size this))
        (tickMajor o) (tickMinor o) (tickMicro o) (startX o) (showLabel o)
  | vertical =>
      drawTicks fuel this vertical (height (size this))
        (tickMajor o) (tickMinor o) (tickMicro o) (startY o) (showLabel o)
  end.

(** Extents along the axis of the ruler and across it. *)
Definition extent (o : Orientation) (s : Size) : Q :=
  match o with horizontal => width s | vertical => height s end.




Definition start_offset (this : Ruler) : Q :=
  match orientation (options this) with
  | horizontal => startX (options this)
  | vertical => startY (options this)
  end.

(** The scale factors in the words of the specification, from the pixels
    per millimetre [p]. *)
Definition spec_scale (p : Q) (u : string) : Q :=
  if (u =? "px")%string then 1
  else if (u =? "mm")%string then p
  else if (u =? "cm")%string then 10 * p
  else if (u =? "in")%string then 25.4 * p
  else 1.




(** The units whose scale factor comes from the 1mm probe. *)
Definition probe_units : list string := ["mm"; "cm"; "in"]%string.


(** The validity tests of the two copies on the tracked coordinates. *)
Definition valid_from_zero (this : Ruler) : Prop :=
  0 <= mouseX this /\ 0 <= mouseY this.


(** ** The page side of the class: child lists and the style of the canvas *)

Definition Node : Type := nat.

(** [parent.appendChild(node)]: the node goes to the end of the child list;
    a node that is a child already is moved there. *)
Definition appendChild (children : list Node) (node : Node) : list Node :=
  remove Nat.eq_dec node children ++ [node].

(** [parent.removeChild(node)]. *)
Definition removeChild (children : list Node) (node : Node) : list Node :=
  remove Nat.eq_dec node children.

(** The three style properties of the canvas that the class writes; a
    property that was never written is the empty string. *)
Record Style : Type := {
  style_position : string;
  style_top : string;
  style_left : string
}.

Definition unstyled : Style :=
  {| style_position := ""; style_top := ""; style_left := "" |}.

(** [setPosition(container)], on the style of the canvas and the child list
    of the container. *)
Definition setPosition (this : Ruler) (style : Style)
    (children : list Node) (canvas_node : Node) : Style * list Node :=
  let thickness := rulerThickness (options this) in
  match position (options this) with
  | outside =>
      match orientation (options this) with
      | horizontal =>
          ({| style_position := "absolute";
              style_top := (JS.toString (- thickness) ++ "px")%string;
              style_left := style_left style |},
           children)
      | vertical =>
          ({| style_position := "absolute";
              style_top := style_top style;
              style_left := (JS.toString (- thickness) ++ "px")%string |},
           children)
      end
  | inside => (style, appendChild children canvas_node)
  end.

(** The statements of the constructor that touch the page: the canvas, just
    created, is appended to the container (line 46), and after the first
    render [setPosition] places it (line 70). *)
Definition constructor_page (this : Ruler) (children : list Node)
    (canvas_node : Node) : Style * list Node :=
  let children := appendChild children canvas_node in
  setPosition this unstyled children canvas_node.

(** [calcPixelsPerMM] with the child list of the body: the probe is
    appended, measured and removed. *)
Definition calcPixelsPerMM_page (dom : Dom) (body : list Node)
    (tempDiv : Node) : Q * list Node :=
  let body := appendChild body tempDiv in
  let pixelsPerMM := inject_Z (Z.of_N (offsetWidth dom)) in
  let body := removeChild body tempDiv in
  (pixelsPerMM, body).

(** ** The branch for inches, loop by loop *)

(** [i % d === 0] does not hold. *)
Definition not_multiple (d i : Q) : bool := negb (JS.is_zero (JS.rem i d)).

(** The major tick of the branch for inches at [i]: 15 long on a
    horizontal ruler, 10 long on a vertical one. *)
Definition inch_major_segment (o : Orientation) (i : Q) : segment :=
  match o with
  | horizontal => ((i, 0), (i, 15))
  | vertical => ((0, i), (10, i))
  end.

Definition inch_major_label (o : Orientation) (i : Q) : string * (Q * Q) :=
  match o with
  | horizontal => (Hardcoded.inchLabel i, (i + 2, 25))
  | vertical => (Hardcoded.inchLabel i, (17, i + 10))
  end.

Definition inch_segments (o : Orientation)
    (length major minor micro start : Q) : list segment :=
  map (inch_major_segment o) (spec_positions start length major)
  ++ map (fun i => tick_segment o i Minor)
       (filter (not_multiple major) (spec_positions start length minor))
  ++ map (fun i => tick_segment o i Micro)
       (filter (fun i => not_multiple major i && not_multiple minor i)
          (spec_positions start length micro)).

Definition inch_labels (o : Orientation) (length major start : Q)
  : list (string * (Q * Q)) :=
  map (inch_major_label o) (spec_positions start length major).

(** ** Points and the canvas *)

Definition cross (o : Orientation) (s : Size) : Q :=
  match o with horizontal => height s | vertical => width s end.

(** A point of the canvas rectangle. *)
Definition on_canvas (c : Canvas) (p : Q * Q) : Prop :=
  0 <= fst p /\ fst p <= canvas_width c
  /\ 0 <= snd p /\ snd p <= canvas_height c.

(** What holds of the geometry of every instance a program can hold. *)
Definition geometry_ok (this : Ruler) : Prop :=
  canvas_width (canvas this) = width (size this)
  /\ canvas_height (canvas this) = height (size this)
  /\ cross (orientation (options this)) (size this)
     = rulerThickness (options this)
  /\ exists z : Z,
       extent (orientation (options this)) (size this) = inject_Z z.

(** An instance with the cursor indicator switched off. *)
Definition without_indicator (this : Ruler) : Ruler :=
  {| options :=
       {| unit := unit (options this);
          tickMajor := tickMajor (options this);
          tickMinor := tickMinor (options this);
          tickMicro := tickMicro (options this);
          showLabel := showLabel (options this);
          startX := startX (options this);
          startY := startY (options this);
          arrowStyle := arrowStyle (options this);
          showMousePosition := false;
          position := position (options this);
          orientation := orientation (options this);
          rulerThickness := rulerThickness (options this) |};
     canvas := canvas this;
     size := size this;
     unitDiv := unitDiv this;
     mouseX := mouseX this;
     mouseY := mouseY this |}.

(** An instance with another value for the option [arrowStyle]. *)
Definition with_arrowStyle (this : Ruler) (style : string) : Ruler :=
  {| options :=
       {| unit := unit (options this);
          tickMajor := tickMajor (options this);
          tickMinor := tickMinor (options this);
          tickMicro := tickMicro (options this);
          showLabel := showLabel (options this);
          startX := startX (options this);
          startY := startY (options this);
          arrowStyle := style;
          showMousePosition := showMousePosition (options this);
          position := position (options this);
          orientation := orientation (options this);
          rulerThickness := rulerThickness (options this) |};
     canvas := canvas this;
     size := size this;
     unitDiv := unitDiv this;
     mouseX := mouseX this;
     mouseY := mouseY this |}.
(** * Properties *)

(** ** Comparisons *)

Lemma lt_true (a b : Q) : JS.lt a b = true <-> a < b.
Proof.
  unfold JS.lt. rewrite negb_true_iff.
  split; intro H.
  - destruct (Qlt_le_dec a b) as [L | L]; [exact L |].
    apply Qle_bool_iff in L. congruence.
  - destruct (Qle_bool b a) eqn:E; [| reflexivity].
    apply Qle_bool_iff in E. lra.
Qed.

Lemma lt_false (a b : Q) : JS.lt a b = false <-> b <= a.
Proof.
  unfold JS.lt. rewrite negb_false_iff. apply Qle_bool_iff.
Qed.


Lemma le_false (a b : Q) : JS.le a b = false <-> b < a.
Proof.
  unfold JS.le. split; intro H.
  - destruct (Qlt_le_dec b a) as [L | L]; [exact L |].
    apply Qle_bool_iff in L. congruence.
  - destruct (Qle_bool a b) eqn:E; [| reflexivity].
    apply Qle_bool_iff in E. lra.
Qed.

Lemma strict_eq_true (a b : Q) : JS.strict_eq a b = true <-> a == b.
Proof. apply Qeq_bool_iff. Qed.

Lemma strict_eq_false (a b : Q) : JS.strict_eq a b = false <-> ~ a == b.
Proof.
  unfold JS.strict_eq. split; intro H.
  - intro E. apply Qeq_bool_iff in E. congruence.
  - destruct (Qeq_bool a b) eqn:E; [| reflexivity].
    apply Qeq_bool_iff in E. contradiction.
Qed.

(** ** The loop *)

Lemma for_loop_stuck (body : Q -> list command) (length step : Q) :
  step <= 0 ->
  forall fuel i, i < length -> for_loop fuel i length step body = Unfinished.
Proof.
  intros Hstep fuel.
  induction fuel as [| fuel IH]; intros i Hi; simpl.
  - apply lt_true in Hi. rewrite Hi. reflexivity.
  - pose proof Hi as Hi'. apply lt_true in Hi'. rewrite Hi'.
    rewrite IH by lra. reflexivity.
Qed.

Lemma for_loop_not_thrown (body : Q -> list command) (length step : Q) :
  forall fuel i, for_loop fuel i length step body <> Thrown.
Proof.
  induction fuel as [| fuel IH]; intros i; simpl.
  - destruct (JS.lt i length); discriminate.
  - destruct (JS.lt i length); [| discriminate].
    specialize (IH (i + step)).
    destruct (for_loop fuel (i + step) length step body); simpl;
      congruence.
Qed.

Lemma inject_Z_sub (a b : Z) : inject_Z (a - b) = inject_Z a - inject_Z b.
Proof.
  unfold Z.sub, Qminus. rewrite inject_Z_plus, inject_Z_opp. reflexivity.
Qed.

Lemma Qceiling_unique (x : Q) (z : Z) :
  inject_Z (z - 1) < x -> x <= inject_Z z -> Qceiling x = z.
Proof.
  intros Hlo Hhi.
  pose proof (Qle_ceiling x) as H1.
  pose proof (Qceiling_lt x) as H2.
  assert (A : (inject_Z (z - 1) < inject_Z (Qceiling x))) by lra.
  assert (B : (inject_Z (Qceiling x - 1) < inject_Z z)) by lra.
  rewrite <- Zlt_Qlt in A, B. lia.
Qed.

Lemma iterations_done (start length step : Q) :
  length <= start -> iterations start length step = O.
Proof.
  intro H. unfold iterations.
  apply lt_false in H. rewrite H. reflexivity.
Qed.

Lemma iterations_step (start length step : Q) :
  0 < step -> start < length ->
  iterations start length step = S (iterations (start + step) length step).
Proof.
  intros Hstep Hlt. unfold iterations.
  pose proof Hlt as Hb. apply lt_true in Hb. rewrite Hb.
  set (x := (length - start) / step).
  assert (Hx : 0 < x).
  { unfold x. apply Qlt_shift_div_l; lra. }
  assert (Hc : (1 <= Qceiling x)%Z).
  { pose proof (Qle_ceiling x) as H1.
    assert (A : inject_Z 0 < inject_Z (Qceiling x)).
    { change (inject_Z 0) with 0. lra. }
    rewrite <- Zlt_Qlt in A. lia. }
  destruct (JS.lt (start + step) length) eqn:E.
  - apply lt_true in E.
    assert (Hx' : (length - (start + step)) / step == x - 1).
    { unfold x. field. lra. }
    rewrite Hx'.
    assert (Hc' : Qceiling (x - 1) = (Qceiling x - 1)%Z).
    { apply Qceiling_unique.
      - pose proof (Qceiling_lt x) as H2.
        rewrite !inject_Z_sub in *.
        change (inject_Z 1) with 1 in *. lra.
      - pose proof (Qle_ceiling x) as H1.
        rewrite inject_Z_sub. change (inject_Z 1) with 1. lra. }
    rewrite Hc'. lia.
  - apply lt_false in E.
    assert (Hx1 : x <= 1).
    { unfold x. apply Qle_shift_div_r; lra. }
    assert (Hc1 : Qceiling x = 1%Z).
    { apply Qceiling_unique.
      - change (inject_Z (1 - 1)) with 0. lra.
      - change (inject_Z 1) with 1. lra. }
    rewrite Hc1. reflexivity.
Qed.

Lemma for_loop_finishes (body : Q -> list command) (length step : Q) :
  0 < step ->
  forall n fuel start,
    iterations start length step = n -> (n <= fuel)%nat ->
    for_loop fuel start length step body
    = Returned (flat_map body (positions_from n start step)).
Proof.
  intros Hstep.
  induction n as [| n IH]; intros fuel start Hn Hfuel.
  - assert (Hge : length <= start).
    { destruct (Qlt_le_dec start length) as [L | L]; [| exact L].
      rewrite (iterations_step _ _ _ Hstep L) in Hn. discriminate. }
    apply lt_false in Hge.
    destruct fuel; simpl; rewrite Hge; reflexivity.
  - assert (Hlt : start < length).
    { destruct (Qlt_le_dec start length) as [L | L]; [exact L |].
      rewrite (iterations_done _ _ _ L) in Hn. discriminate. }
    rewrite (iterations_step _ _ _ Hstep Hlt) in Hn.
    injection Hn as Hn.
    destruct fuel as [| fuel]; [lia |].
    simpl. apply lt_true in Hlt. rewrite Hlt.
    rewrite (IH fuel (start + step) Hn) by lia.
    reflexivity.
Qed.

Lemma for_loop_returned (body : Q -> list command) (length step : Q) :
  forall fuel start out,
    for_loop fuel start length step body = Returned out ->
    out = flat_map body (spec_positions start length step).
Proof.
  intros fuel start out H.
  destruct (Qlt_le_dec start length) as [L | L].
  - destruct (Qlt_le_dec 0 step) as [P | P].
    + destruct (Nat.le_gt_cases (iterations start length step) fuel) as [F | F].
      * rewrite (for_loop_finishes body length step P _ fuel start eq_refl F) in H.
        injection H as <-. reflexivity.
      * (* less fuel than iterations: the run cannot have returned *)
        exfalso. revert start out H L F.
        induction fuel as [| fuel IH]; intros start out H L F; simpl in H.
        -- apply lt_true in L. rewrite L in H. discriminate.
        -- pose proof L as Lb. apply lt_true in Lb. rewrite Lb in H.
           rewrite (iterations_step _ _ _ P L) in F.
           destruct (for_loop fuel (start + step) length step body) eqn:E;
             simpl in H; try discriminate.
           destruct (Qlt_le_dec (start + step) length) as [L' | L'].
           ++ apply (IH (start + step) a E L'). lia.
           ++ rewrite (iterations_done _ _ _ L') in F. lia.
    + rewrite (for_loop_stuck body length step P fuel start L) in H.
      discriminate.
  - unfold spec_positions. rewrite (iterations_done _ _ _ L). simpl.
    apply lt_false in L.
    destruct fuel; simpl in H; rewrite L in H; congruence.
Qed.

(** ** Divisibility *)

Lemma trunc_integer (q : Q) (z : Z) : q == inject_Z z -> JS.trunc q = z.
Proof.
  intro H. unfold JS.trunc.
  unfold Qeq in H. simpl in H. rewrite Z.mul_1_r in H.
  rewrite H. apply Z.quot_mul. discriminate.
Qed.

Lemma is_integer_iff (q : Q) :
  JS.is_integer q = true <-> exists k : Z, q == inject_Z k.
Proof.
  unfold JS.is_integer. rewrite strict_eq_true. split.
  - intro H. exists (Qfloor q). exact H.
  - intros [k Hk]. rewrite Hk at 2. rewrite Qfloor_Z. exact Hk.
Qed.

Lemma divides_b_iff (d i : Q) :
  ~ d == 0 -> (divides_b d i = true <-> evenly_divisible i d).
Proof.
  intro Hd. unfold divides_b, evenly_divisible.
  rewrite is_integer_iff. split; intros [k Hk]; exists k.
  - rewrite <- Hk. field. exact Hd.
  - rewrite Hk. field. exact Hd.
Qed.

Lemma rem_zero_iff (i d : Q) :
  ~ d == 0 -> (JS.is_zero (JS.rem i d) = true <-> divides_b d i = true).
Proof.
  intro Hd. unfold JS.rem.
  pose proof Hd as Hb. apply strict_eq_false in Hb. rewrite Hb. simpl.
  rewrite strict_eq_true. unfold divides_b. rewrite is_integer_iff.
  split.
  - intro H. exists (JS.trunc (i / d)).
    apply (Qmult_inj_r _ _ d Hd).
    setoid_replace (i / d * d) with i by (field; exact Hd). lra.
  - intros [k Hk]. rewrite (trunc_integer _ _ Hk).
    setoid_replace i with (i / d * d) at 1 by (field; exact Hd).
    rewrite Hk. ring.
Qed.

Lemma tick_test_matches (i tick : Q) : tick_test i tick = matches tick i.
Proof.
  unfold tick_test, matches. rewrite andb_comm.
  destruct (JS.gt tick 0) eqn:G; [| reflexivity]. simpl.
  apply lt_true in G.
  assert (Hd : ~ tick == 0) by lra.
  pose proof (rem_zero_iff i tick Hd) as H.
  destruct (JS.is_zero (JS.rem i tick)), (divides_b tick i);
    try reflexivity; destruct H as [H1 H2];
    [ discriminate (H1 eq_refl) | discriminate (H2 eq_refl) ].
Qed.

(** A category whose interval is not positive matches nowhere. *)
Lemma matches_disabled
    (interval i : Q) : interval <= 0 -> matches interval i = false.
Proof.
  intro H. unfold matches, JS.gt. apply lt_false in H. rewrite H. reflexivity.
Qed.

Lemma matches_iff (interval i : Q) :
  matches interval i = true <-> 0 < interval /\ evenly_divisible i interval.
Proof.
  unfold matches, JS.gt. rewrite andb_true_iff, lt_true. split.
  - intros [P D]. split; [exact P |]. apply divides_b_iff; [lra | exact D].
  - intros [P D]. split; [exact P |]. apply divides_b_iff; [lra | exact D].
Qed.

(** A tick is of a type whose interval is positive and divides its
    coordinate. *)
Lemma spec_tick_type_enabled (major minor micro i : Q) (t : TickType) :
  spec_tick_type major minor micro i = Some t ->
  match t with
  | Major => 0 < major /\ evenly_divisible i major
  | Minor => 0 < minor /\ evenly_divisible i minor
  | Micro => 0 < micro /\ evenly_divisible i micro
  end.
Proof.
  unfold spec_tick_type.
  destruct (matches major i) eqn:E1;
    [intro H; injection H as <-; apply matches_iff; exact E1 |].
  destruct (matches minor i) eqn:E2;
    [intro H; injection H as <-; apply matches_iff; exact E2 |].
  destruct (matches micro i) eqn:E3;
    [intro H; injection H as <-; apply matches_iff; exact E3 |].
  discriminate.
Qed.

(** ** The loop bodies of the general path *)

Lemma Measured_body
    (o : Orientation) (showLabel : bool) (major minor micro i : Q) :
  (let tickTypeIndex :=
     JS.findIndex (fun tick => JS.is_zero (JS.rem i tick) && JS.gt tick 0)
       [major; minor; micro] in
   if (tickTypeIndex =? -1)%Z then []
   else
     let tickHeight := nth (Z.to_nat tickTypeIndex) Measured.tickHeights 0 in
     match o with
     | horizontal =>
         [moveTo i 0; lineTo i tickHeight] ++
         (if showLabel && (tickTypeIndex =? 0)%Z then
            [fillText (JS.toString i) (i + 2) (tickHeight + 10)]
          else [])
     | vertical =>
         [moveTo 0 i; lineTo tickHeight i] ++
         (if showLabel && (tickTypeIndex =? 0)%Z then
            [fillText (JS.toString i) (tickHeight + 2) (i + 10)]
          else [])
     end)
  = draw_tick o showLabel major minor micro i.
Proof.
  unfold draw_tick, is_major, spec_tick_type, JS.findIndex. simpl.
  fold (tick_test i major). fold (tick_test i minor). fold (tick_test i micro).
  rewrite !tick_test_matches.
  destruct (matches major i); [destruct o, showLabel; reflexivity |].
  destruct (matches minor i); [destruct o, showLabel; reflexivity |].
  destruct (matches micro i); [destruct o, showLabel; reflexivity |].
  reflexivity.
Qed.

Lemma Hardcoded_body
    (o : Orientation) (showLabel : bool) (major minor micro i : Q) :
  (let tickTypeIndex :=
     if JS.is_zero (JS.rem i major) && JS.gt major 0 then 0%Z
     else if JS.is_zero (JS.rem i minor) && JS.gt minor 0 then 1%Z
     else if JS.is_zero (JS.rem i micro) && JS.gt micro 0 then 2%Z
     else (-1)%Z in
   if (tickTypeIndex =? -1)%Z then []
   else
     let tickHeight := nth (Z.to_nat tickTypeIndex) Hardcoded.tickHeights 0 in
     match o with
     | horizontal =>
         [moveTo i 0; lineTo i tickHeight] ++
         (if showLabel && (tickTypeIndex =? 0)%Z then
            [fillText (JS.toString i) (i + 2) (tickHeight + 10)]
          else if showLabel && (tickTypeIndex =? 0)%Z then
            [fillText (JS.toString i) (i + 2) (tickHeight + 10)]
          else [])
     | vertical =>
         [moveTo 0 i; lineTo tickHeight i] ++
         (if showLabel && (tickTypeIndex =? 0)%Z then
            [fillText (JS.toString i) (tickHeight + 2) (i + 10)]
          else if showLabel && (tickTypeIndex =? 0)%Z then
            [fillText (JS.toString i) (tickHeight + 2) (i + 10)]
          else [])
     end)
  = draw_tick o showLabel major minor micro i.
Proof.
  unfold draw_tick, is_major, spec_tick_type. simpl.
  fold (tick_test i major). fold (tick_test i minor). fold (tick_test i micro).
  rewrite !tick_test_matches.
  destruct (matches major i); [destruct o, showLabel; reflexivity |].
  destruct (matches minor i); [destruct o, showLabel; reflexivity |].
  destruct (matches micro i); [destruct o, showLabel; reflexivity |].
  reflexivity.
Qed.

Lemma for_loop_ext (body1 body2 : Q -> list command) :
  (forall i, body1 i = body2 i) ->
  forall fuel i length step,
    for_loop fuel i length step body1 = for_loop fuel i length step body2.
Proof.
  intros E fuel.
  induction fuel as [| fuel IH]; intros i length step; simpl.
  - reflexivity.
  - rewrite IH, E. reflexivity.
Qed.

Lemma Measured_drawTicks_general
    fuel this o length major minor micro start showLabel :
  Measured.drawTicks fuel this o length major minor micro start showLabel
  = general_path fuel o showLabel length major minor micro start (unitDiv this).
Proof.
  unfold Measured.drawTicks, general_path.
  erewrite for_loop_ext; [reflexivity |].
  intro i. apply Measured_body.
Qed.

Lemma Hardcoded_drawTicks_general
    fuel this o length major minor micro start showLabel :
  unit (options this) <> "in"%string ->
  Hardcoded.drawTicks fuel this o length major minor micro start showLabel
  = general_path fuel o showLabel length major minor micro start (unitDiv this).
Proof.
  intro U. unfold Hardcoded.drawTicks, general_path.
  apply String.eqb_neq in U. rewrite U.
  erewrite for_loop_ext; [reflexivity |].
  intro i. apply Hardcoded_body.
Qed.


Lemma general_path_returned
    fuel o showLabel length major minor micro start step out :
  general_path fuel o showLabel length major minor micro start step
    = Returned out ->
  out = layout o showLabel length major minor micro start step.
Proof.
  unfold general_path, layout. intro H.
  destruct (for_loop fuel start length step
              (draw_tick o showLabel major minor micro)) eqn:E;
    simpl in H; try discriminate.
  injection H as <-.
  rewrite (for_loop_returned _ _ _ _ _ _ E). reflexivity.
Qed.



(** ** What the general path shows *)

Lemma segments_draw_tick o showLabel major minor micro i rest :
  segments (draw_tick o showLabel major minor micro i ++ rest)
  = match spec_tick_type major minor micro i with
    | Some t => [tick_segment o i t]
    | None => []
    end ++ segments rest.
Proof.
  unfold draw_tick.
  destruct (spec_tick_type major minor micro i) as [t |]; [| reflexivity].
  destruct o, (showLabel && is_major major minor micro i); reflexivity.
Qed.

Lemma segments_layout o showLabel length major minor micro start step :
  segments (layout o showLabel length major minor micro start step)
  = spec_ticks o length major minor micro start step.
Proof.
  unfold layout, spec_ticks. simpl.
  induction (spec_positions start length step) as [| i ps IH]; simpl.
  - reflexivity.
  - rewrite <- app_assoc, segments_draw_tick, IH. reflexivity.
Qed.

Lemma labels_app (a b : list command) : labels (a ++ b) = labels a ++ labels b.
Proof.
  induction a as [| c a IH]; simpl; [reflexivity |].
  destruct c; simpl; rewrite IH; reflexivity.
Qed.



(** ** The positions of the loop *)

Lemma positions_from_nth n : forall start step k p,
  nth_error (positions_from n start step) k = Some p ->
  p == start + inject_Z (Z.of_nat k) * step.
Proof.
  induction n as [| n IH]; intros start step k p H.
  - destruct k; discriminate.
  - destruct k as [| k]; simpl in H.
    + injection H as <-. change (inject_Z (Z.of_nat 0)) with 0. ring.
    + apply IH in H. rewrite H.
      rewrite Nat2Z.inj_succ. unfold Z.succ. rewrite inject_Z_plus.
      change (inject_Z 1) with 1. ring.
Qed.


(** The positions are the terms of [start + k * step] that lie below
    [length], in order, none missing. *)
Lemma spec_positions_sound start length step k p :
  0 < step ->
  nth_error (spec_positions start length step) k = Some p ->
  p == start + inject_Z (Z.of_nat k) * step /\ p < length.
Proof.
  intros P H. split; [exact (positions_from_nth _ _ _ _ _ H) |].
  unfold spec_positions in H.
  remember (iterations start length step) as n eqn:Hn.
  revert start k Hn H.
  induction n as [| n IH]; intros start k Hn H.
  - destruct k; discriminate.
  - assert (L : start < length).
    { destruct (Qlt_le_dec start length) as [L | L]; [exact L |].
      rewrite (iterations_done _ _ _ L) in Hn. discriminate. }
    destruct k as [| k]; simpl in H.
    + injection H as <-. exact L.
    + rewrite (iterations_step _ _ _ P L) in Hn. injection Hn as Hn.
      exact (IH (start + step) k Hn H).
Qed.


(** A step that is not positive leaves the list of positions empty. *)
Lemma iterations_stuck (start length step : Q) :
  step <= 0 -> iterations start length step = O.
Proof.
  intro N. unfold iterations.
  destruct (JS.lt start length) eqn:L; [| reflexivity].
  apply lt_true in L.
  assert (X : (length - start) / step <= 0).
  { destruct (Qeq_dec step 0) as [Z | NZ].
    - unfold Qdiv. rewrite Z. change (/ 0) with 0. lra.
    - assert (Pos : 0 < (length - start) / - step).
      { apply Qlt_shift_div_l; lra. }
      setoid_replace ((length - start) / step)
        with (- ((length - start) / - step)) by (field; lra).
      lra. }
  apply Qceiling_resp_le in X. change (Qceiling 0) with 0%Z in X.
  destruct (Qceiling ((length - start) / step)); try reflexivity; lia.
Qed.

Lemma spec_positions_in_range start length step k p :
  nth_error (spec_positions start length step) k = Some p ->
  p == start + inject_Z (Z.of_nat k) * step /\ p < length.
Proof.
  destruct (Qlt_le_dec 0 step) as [P | N].
  - apply spec_positions_sound. exact P.
  - unfold spec_positions. rewrite (iterations_stuck _ _ _ N).
    destruct k; discriminate.
Qed.



(** ** Outcomes of [drawTicks] *)

Lemma for_loop_deterministic (body : Q -> list command) length step
    fuel1 fuel2 start a b :
  for_loop fuel1 start length step body = Returned a ->
  for_loop fuel2 start length step body = Returned b ->
  a = b.
Proof.
  intros Ha Hb.
  rewrite (for_loop_returned _ _ _ _ _ _ Ha).
  rewrite (for_loop_returned _ _ _ _ _ _ Hb).
  reflexivity.
Qed.

Lemma indicator_drawn_app (a b : list command) :
  indicator_drawn (a ++ b) = indicator_drawn a || indicator_drawn b.
Proof. apply existsb_app. Qed.

Lemma for_loop_plain (body : Q -> list command) length step :
  (forall i, indicator_drawn (body i) = false) ->
  forall fuel start out,
    for_loop fuel start length step body = Returned out ->
    indicator_drawn out = false.
Proof.
  intros Hbody fuel start out H.
  rewrite (for_loop_returned _ _ _ _ _ _ H).
  induction (spec_positions start length step) as [| i ps IH]; simpl.
  - reflexivity.
  - rewrite indicator_drawn_app, Hbody, IH. reflexivity.
Qed.

Lemma draw_tick_plain o showLabel major minor micro i :
  indicator_drawn (draw_tick o showLabel major minor micro i) = false.
Proof.
  unfold draw_tick.
  destruct (spec_tick_type major minor micro i); [| reflexivity].
  destruct o, (showLabel && is_major major minor micro i); reflexivity.
Qed.

Lemma general_path_plain
    fuel o showLabel length major minor micro start step out :
  general_path fuel o showLabel length major minor micro start step
    = Returned out ->
  indicator_drawn out = false.
Proof.
  unfold general_path. intro H.
  destruct (for_loop fuel start length step
              (draw_tick o showLabel major minor micro)) eqn:E;
    simpl in H; try discriminate.
  injection H as <-. simpl.
  rewrite indicator_drawn_app.
  rewrite (for_loop_plain _ _ _ (draw_tick_plain o showLabel major minor micro)
             _ _ _ E).
  reflexivity.
Qed.

Lemma general_path_deterministic
    fuel1 fuel2 o showLabel length major minor micro
    start step a b :
  general_path fuel1 o showLabel length major minor micro start step
    = Returned a ->
  general_path fuel2 o showLabel length major minor micro start step
    = Returned b ->
  a = b.
Proof.
  intros Ha Hb.
  rewrite (general_path_returned _ _ _ _ _ _ _ _ _ _ Ha).
  rewrite (general_path_returned _ _ _ _ _ _ _ _ _ _ Hb).
  reflexivity.
Qed.

(** The three loops of the branch for inches. *)
Ltac split_loops H :=
  repeat match type of H with
    | context [bind (for_loop ?f ?i ?l ?s ?b) _] =>
        let E := fresh "E" in
        destruct (for_loop f i l s b) eqn:E; simpl in H; try discriminate
    end.



Lemma Hardcoded_drawTicks_plain
    fuel this o length major minor micro start showLabel out :
  Hardcoded.drawTicks fuel this o length major minor micro start showLabel
    = Returned out ->
  indicator_drawn out = false.
Proof.
  destruct (string_dec (unit (options this)) "in") as [U | U].
  - unfold Hardcoded.drawTicks. apply String.eqb_eq in U. rewrite U.
    intro H. split_loops H. injection H as <-. simpl.
    rewrite !indicator_drawn_app.
    repeat match goal with
      | E : for_loop _ _ _ _ _ = Returned _ |- _ =>
          apply for_loop_plain in E;
          [ rewrite E; clear E
          | intro i; destruct o;
            repeat match goal with
              | |- context [if ?c then _ else _] => destruct c
              end; reflexivity ]
      end.
    reflexivity.
  - rewrite Hardcoded_drawTicks_general by exact U.
    apply general_path_plain.
Qed.

Lemma Measured_drawTicks_plain
    fuel this o length major minor micro start showLabel out :
  Measured.drawTicks fuel this o length major minor micro start showLabel
    = Returned out ->
  indicator_drawn out = false.
Proof.
  rewrite Measured_drawTicks_general. apply general_path_plain.
Qed.

Lemma Hardcoded_drawTicks_deterministic
    fuel1 fuel2 this o length major minor micro
    start showLabel a b :
  Hardcoded.drawTicks fuel1 this o length major minor micro start showLabel
    = Returned a ->
  Hardcoded.drawTicks fuel2 this o length major minor micro start showLabel
    = Returned b ->
  a = b.
Proof.
  destruct (string_dec (unit (options this)) "in") as [U | U].
  - unfold Hardcoded.drawTicks. apply String.eqb_eq in U. rewrite U.
    intros Ha Hb. split_loops Ha. split_loops Hb.
    injection Ha as <-. injection Hb as <-.
    repeat match goal with
      | E1 : for_loop _ ?i ?l ?s ?body = Returned ?x,
        E2 : for_loop _ ?i ?l ?s ?body = Returned ?y |- _ =>
          rewrite (for_loop_deterministic _ _ _ _ _ _ _ _ E1 E2) in *;
          clear E1 E2
      end.
    reflexivity.
  - rewrite !Hardcoded_drawTicks_general by exact U.
    apply general_path_deterministic.
Qed.

Lemma Measured_drawTicks_deterministic
    fuel1 fuel2 this o length major minor micro
    start showLabel a b :
  Measured.drawTicks fuel1 this o length major minor micro start showLabel
    = Returned a ->
  Measured.drawTicks fuel2 this o length major minor micro start showLabel
    = Returned b ->
  a = b.
Proof.
  rewrite !Measured_drawTicks_general. apply general_path_deterministic.
Qed.

(** The branch for inches steps by the three intervals themselves. *)
Lemma for_loop_outcome (body : Q -> list command) length step fuel start :
  (exists out, for_loop fuel start length step body = Returned out)
  \/ for_loop fuel start length step body = Unfinished.
Proof.
  pose proof (for_loop_not_thrown body length step fuel start) as H.
  destruct (for_loop fuel start length step body);
    [left; eexists; reflexivity | congruence | right; reflexivity].
Qed.

Lemma Hardcoded_inch_stuck
    fuel this o length major minor micro start showLabel :
  unit (options this) = "in"%string ->
  major <= 0 \/ minor <= 0 \/ micro <= 0 ->
  start < length ->
  Hardcoded.drawTicks fuel this o length major minor micro start showLabel
  = Unfinished.
Proof.
  intros U Hneg L. unfold Hardcoded.drawTicks.
  apply String.eqb_eq in U. rewrite U.
  match goal with
  | |- context [bind (for_loop fuel start length major ?b) _] =>
      destruct (for_loop_outcome b length major fuel start) as [[x Ex] | Ex];
      rewrite Ex; simpl; [| reflexivity]
  end.
  match goal with
  | |- context [bind (for_loop fuel start length minor ?b) _] =>
      destruct (for_loop_outcome b length minor fuel start) as [[y Ey] | Ey];
      rewrite Ey; simpl; [| reflexivity]
  end.
  match goal with
  | |- context [bind (for_loop fuel start length micro ?b) _] =>
      destruct (for_loop_outcome b length micro fuel start) as [[z Ez] | Ez];
      rewrite Ez; simpl; [| reflexivity]
  end.
  exfalso.
  destruct Hneg as [N | [N | N]].
  - rewrite (for_loop_stuck _ length major N fuel start L) in Ex. discriminate.
  - rewrite (for_loop_stuck _ length minor N fuel start L) in Ey. discriminate.
  - rewrite (for_loop_stuck _ length micro N fuel start L) in Ez. discriminate.
Qed.


(** ** The shared methods, for any copy *)

Section Shared.

Variable getPixelsPerUnit : Dom -> Ruler -> Q.
Variable drawTicks :
  nat -> Ruler -> Orientation -> Q -> Q -> Q -> Q -> Q -> bool ->
  outcome (list command).
Variable drawMousePosition : Ruler -> list command.

Hypothesis ticks_plain :
  forall fuel this o length major minor micro start showLabel out,
    drawTicks fuel this o length major minor micro start showLabel = Returned out ->
    indicator_drawn out = false.

Hypothesis ticks_not_thrown :
  forall fuel this o length major minor micro start showLabel,
    drawTicks fuel this o length major minor micro start showLabel <> Thrown.

Hypothesis ticks_deterministic :
  forall fuel1 fuel2 this o length major minor micro start showLabel a b,
    drawTicks fuel1 this o length major minor micro start showLabel = Returned a ->
    drawTicks fuel2 this o length major minor micro start showLabel = Returned b ->
    a = b.

Hypothesis scale_by_options :
  forall dom a b, options a = options b ->
    getPixelsPerUnit dom a = getPixelsPerUnit dom b.

Lemma render_shape fuel this :
  renderRuler drawTicks drawMousePosition fuel this
  = (ticks <- tick_run drawTicks fuel this ;;
     Returned
       (clearRect 0 0 (width (size this)) (height (size this)) :: ticks ++
        (if showMousePosition (options this)
         then drawMousePosition this else []))).
Proof.
  unfold renderRuler, tick_run.
  destruct (orientation (options this)); reflexivity.
Qed.

Lemma tick_run_plain fuel this out :
  tick_run drawTicks fuel this = Returned out -> indicator_drawn out = false.
Proof.
  unfold tick_run.
  destruct (orientation (options this)); apply ticks_plain.
Qed.


Lemma tick_run_deterministic fuel1 fuel2 this a b :
  tick_run drawTicks fuel1 this = Returned a ->
  tick_run drawTicks fuel2 this = Returned b ->
  a = b.
Proof.
  unfold tick_run.
  destruct (orientation (options this)); apply ticks_deterministic.
Qed.

Lemma render_returned fuel this out :
  renderRuler drawTicks drawMousePosition fuel this = Returned out ->
  exists ticks,
    tick_run drawTicks fuel this = Returned ticks /\
    out = clearRect 0 0 (width (size this)) (height (size this)) :: ticks ++
          (if showMousePosition (options this)
           then drawMousePosition this else []).
Proof.
  rewrite render_shape. intro H.
  destruct (tick_run drawTicks fuel this) as [ticks | |] eqn:E;
    simpl in H; try discriminate.
  injection H as <-. exists ticks. split; reflexivity.
Qed.

Lemma render_indicator fuel this out :
  renderRuler drawTicks drawMousePosition fuel this = Returned out ->
  indicator_drawn out
  = showMousePosition (options this) && indicator_drawn (drawMousePosition this).
Proof.
  intro H. destruct (render_returned _ _ _ H) as [ticks [E ->]].
  change (indicator_drawn (clearRect ?x ?y ?w ?h :: ?l))
    with (indicator_drawn l).
  rewrite indicator_drawn_app, (tick_run_plain _ _ _ E). simpl.
  destruct (showMousePosition (options this)); reflexivity.
Qed.


Lemma render_deterministic fuel1 fuel2 this a b :
  renderRuler drawTicks drawMousePosition fuel1 this = Returned a ->
  renderRuler drawTicks drawMousePosition fuel2 this = Returned b ->
  a = b.
Proof.
  intros Ha Hb.
  destruct (render_returned _ _ _ Ha) as [ta [Ea ->]].
  destruct (render_returned _ _ _ Hb) as [tb [Eb ->]].
  rewrite (tick_run_deterministic _ _ _ _ _ Ea Eb). reflexivity.
Qed.



Lemma render_stuck this :
  never_returns (fun fuel => tick_run drawTicks fuel this) ->
  never_returns (fun fuel => renderRuler drawTicks drawMousePosition fuel this).
Proof.
  intros H fuel. rewrite render_shape, (H fuel). reflexivity.
Qed.

(** [refresh] *)

Lemma or_else_twice (r : option Q) (x : Q) :
  JS.or_else r (JS.or_else r x) = JS.or_else r x.
Proof.
  destruct r as [q |]; simpl; [| reflexivity].
  destruct (JS.strict_eq q 0) eqn:E; simpl; rewrite ?E; reflexivity.
Qed.


Lemma refresh_render fuel dom this :
  snd (refresh getPixelsPerUnit drawTicks drawMousePosition fuel dom this)
  = renderRuler drawTicks drawMousePosition fuel
      (fst (refresh getPixelsPerUnit drawTicks drawMousePosition fuel dom this)).
Proof. reflexivity. Qed.

Lemma refresh_options fuel dom this :
  options (fst (refresh getPixelsPerUnit drawTicks drawMousePosition fuel dom this))
  = options this.
Proof.
  unfold refresh. destruct (orientation (options this)); reflexivity.
Qed.

Lemma refresh_state_fuel fuel1 fuel2 dom this :
  fst (refresh getPixelsPerUnit drawTicks drawMousePosition fuel1 dom this)
  = fst (refresh getPixelsPerUnit drawTicks drawMousePosition fuel2 dom this).
Proof. reflexivity. Qed.

Lemma refresh_twice fuel dom this :
  refresh getPixelsPerUnit drawTicks drawMousePosition fuel dom
    (fst (refresh getPixelsPerUnit drawTicks drawMousePosition fuel dom this))
  = refresh getPixelsPerUnit drawTicks drawMousePosition fuel dom this.
Proof.
  unfold refresh.
  destruct (orientation (options this)) eqn:O; simpl; rewrite O; simpl;
    rewrite or_else_twice;
    match goal with
    | |- (set_unitDiv ?s1 (getPixelsPerUnit dom ?s1), _)
         = (set_unitDiv ?s2 (getPixelsPerUnit dom ?s2), _) =>
        rewrite (scale_by_options dom s1 s2) by reflexivity
    end;
    reflexivity.
Qed.


(** The pointer handlers *)

Lemma mouseleave_state fuel this :
  fst (handleMouseLeave drawTicks drawMousePosition fuel this)
  = set_mouse this (-1) (-1).
Proof. reflexivity. Qed.

Lemma mouseleave_render fuel this :
  snd (handleMouseLeave drawTicks drawMousePosition fuel this)
  = renderRuler drawTicks drawMousePosition fuel (set_mouse this (-1) (-1)).
Proof. reflexivity. Qed.

(** Each call ends when the render of the instance it leaves does. *)





End Shared.

(** ** Scale factors of the two copies *)

Lemma Hardcoded_scale_by_options dom a b :
  options a = options b ->
  Hardcoded.getPixelsPerUnit dom a = Hardcoded.getPixelsPerUnit dom b.
Proof. intro E. unfold Hardcoded.getPixelsPerUnit. rewrite E. reflexivity. Qed.

Lemma Measured_scale_by_options dom a b :
  options a = options b ->
  Measured.getPixelsPerUnit dom a = Measured.getPixelsPerUnit dom b.
Proof. intro E. unfold Measured.getPixelsPerUnit. rewrite E. reflexivity. Qed.

Lemma Hardcoded_scale_positive dom this :
  0 < Hardcoded.getPixelsPerUnit dom this.
Proof.
  unfold Hardcoded.getPixelsPerUnit.
  repeat match goal with
    | |- context [if ?c then _ else _] => destruct c
    end; reflexivity.
Qed.

Lemma probe_nonneg dom : 0 <= calcPixelsPerMM dom.
Proof.
  unfold calcPixelsPerMM. change 0 with (inject_Z 0).
  rewrite <- Zle_Qle. lia.
Qed.

Lemma probe_pos dom : probe_positive dom -> 0 < calcPixelsPerMM dom.
Proof.
  unfold probe_positive, calcPixelsPerMM. intro H.
  change 0 with (inject_Z 0). rewrite <- Zlt_Qlt. lia.
Qed.

Lemma Measured_scale_nonneg dom this :
  0 <= Measured.getPixelsPerUnit dom this.
Proof.
  pose proof (probe_nonneg dom) as H.
  unfold Measured.getPixelsPerUnit.
  repeat match goal with
    | |- context [if ?c then _ else _] => destruct c
    end; lra.
Qed.

Lemma Measured_scale_positive dom this :
  probe_positive dom -> 0 < Measured.getPixelsPerUnit dom this.
Proof.
  intro P. pose proof (probe_pos dom P) as H.
  unfold Measured.getPixelsPerUnit.
  repeat match goal with
    | |- context [if ?c then _ else _] => destruct c
    end; lra.
Qed.

Lemma Measured_scale_unprobed dom this :
  ~ In (unit (options this)) probe_units ->
  Measured.getPixelsPerUnit dom this = 1.
Proof.
  intro U. unfold Measured.getPixelsPerUnit, probe_units in *.
  destruct (String.eqb_spec (unit (options this)) "px"); [reflexivity |].
  destruct (String.eqb_spec (unit (options this)) "mm") as [E | _];
    [exfalso; apply U; rewrite E; simpl; tauto |].
  destruct (String.eqb_spec (unit (options this)) "cm") as [E | _];
    [exfalso; apply U; rewrite E; simpl; tauto |].
  destruct (String.eqb_spec (unit (options this)) "in") as [E | _];
    [exfalso; apply U; rewrite E; simpl; tauto |].
  reflexivity.
Qed.

Lemma Measured_scale_unprobed_positive dom this :
  ~ In (unit (options this)) probe_units ->
  0 < Measured.getPixelsPerUnit dom this.
Proof.
  intro U. rewrite (Measured_scale_unprobed dom this U). reflexivity.
Qed.

(** ** An invariant of the scale factor along the calls *)

Section Invariant.

Variable getPixelsPerUnit : Dom -> Ruler -> Q.
Variable drawTicks :
  nat -> Ruler -> Orientation -> Q -> Q -> Q -> Q -> Q -> bool ->
  outcome (list command).
Variable drawMousePosition : Ruler -> list command.
Variable admissible : Dom -> Prop.
Variable good : RulerOptions -> Q -> Prop.

Hypothesis scale_good :
  forall dom this,
    admissible dom -> good (options this) (getPixelsPerUnit dom this).

Lemma reachable_scale this :
  reachable getPixelsPerUnit drawTicks drawMousePosition admissible this ->
  good (options this) (unitDiv this).
Proof.
  induction 1 as
    [ fuel dom container opts this out A E
    | fuel dom event this this' out R IH A E
    | fuel this this' out R IH E
    | fuel dom this this' out R IH A E ].
  - unfold constructor, initCanvas in E. injection E as <- _.
    match goal with
    | |- good (options (set_unitDiv ?s _)) _ =>
        exact (scale_good dom s A)
    end.
  - unfold handleMouseMove in E.
    destruct (parentElement dom); [| discriminate].
    destruct (showMousePosition _); injection E as <- _; exact IH.
  - unfold handleMouseLeave in E. injection E as <- _. exact IH.
  - unfold refresh in E. injection E as <- _.
    match goal with
    | |- good (options (set_unitDiv ?s _)) _ =>
        exact (scale_good dom s A)
    end.
Qed.

End Invariant.

(** ** When a render ends *)

Lemma finishes_terminates {A : Type} (run : nat -> outcome A) :
  finishes run -> terminates run.
Proof. intros [fuel [a E]]. exists fuel. rewrite E. discriminate. Qed.










Lemma Hardcoded_inch_render_stuck this :
  unit (options this) = "in"%string ->
  tickMajor (options this) <= 0 \/ tickMinor (options this) <= 0
    \/ tickMicro (options this) <= 0 ->
  start_offset this < extent (orientation (options this)) (size this) ->
  never_returns (fun fuel => Hardcoded.renderRuler fuel this).
Proof.
  intros U N L. apply render_stuck. intro fuel.
  unfold tick_run, start_offset, extent in *.
  destruct (orientation (options this));
    apply Hardcoded_inch_stuck; assumption.
Qed.

(** ** The cursor indicator of the two copies *)

Lemma toFixed0_round (m u : Q) :
  0 <= m -> 0 < u -> m / u < JS.pow10 21 ->
  JS.toFixed0 (JS.div m u) = JS.decimal (round_nearest (m / u)).
Proof.
  intros Hm Hu Hb. unfold JS.div.
  assert (Hu' : JS.strict_eq u 0 = false) by (apply strict_eq_false; lra).
  rewrite Hu'. unfold JS.toFixed0.
  assert (Hx : 0 <= m / u).
  { apply Qle_shift_div_l; lra. }
  assert (Ha : Qabs (m / u) == m / u) by (apply Qabs_pos; exact Hx).
  assert (Hle : JS.le (JS.pow10 21) (Qabs (m / u)) = false).
  { apply le_false. rewrite Ha. exact Hb. }
  rewrite Hle.
  assert (Hlt : JS.lt (m / u) 0 = false) by (apply lt_false; exact Hx).
  rewrite Hlt. unfold round_nearest.
  rewrite (Qfloor_comp (Qabs (m / u) + 1 / 2) (m / u + 1 / 2)); [reflexivity |].
  rewrite Ha. reflexivity.
Qed.

Lemma Measured_indicator_valid this :
  valid_from_zero this -> 0 < unitDiv this ->
  tracked this / unitDiv this < JS.pow10 21 ->
  Measured.drawMousePosition this = spec_indicator this.
Proof.
  intros [Vx Vy] P B.
  unfold Measured.drawMousePosition, spec_indicator, spec_cursor_text,
    tracked in *.
  apply lt_false in Vx as Vx'. apply lt_false in Vy as Vy'.
  rewrite Vx', Vy'. simpl.
  destruct (orientation (options this)); simpl;
    rewrite toFixed0_round by assumption; reflexivity.
Qed.




Lemma Measured_indicator_after_leave this :
  Measured.drawMousePosition (set_mouse this (-1) (-1)) = [].
Proof. reflexivity. Qed.

Lemma Hardcoded_indicator_after_leave this :
  Hardcoded.drawMousePosition (set_mouse this (-1) (-1)) = [].
Proof. reflexivity. Qed.

(** [String(i)] of an integer coordinate is its decimal numeral. *)
Lemma toString_integer (z : Z) :
  (Z.abs z < 10 ^ 21)%Z -> JS.toString (inject_Z z) = JS.decimal z.
Proof.
  intro B. unfold JS.toString.
  assert (I : JS.is_integer (inject_Z z) = true).
  { apply is_integer_iff. exists z. reflexivity. }
  rewrite I.
  assert (L : JS.lt (Qabs (inject_Z z)) (JS.pow10 21) = true).
  { apply lt_true.
    assert (E : Qabs (inject_Z z) = inject_Z (Z.abs z)) by reflexivity.
    rewrite E.
    assert (P : JS.pow10 21 == inject_Z (10 ^ 21)) by reflexivity.
    rewrite P. rewrite <- Zlt_Qlt. exact B. }
  rewrite L. cbn [andb]. rewrite Qfloor_Z. reflexivity.
Qed.

(** * The claims *)







(** C2.  The code at the failing input: the constant copy under the unit
    "in".  Its branch for inches steps each loop by the interval itself and
    tests no interval for being positive, so with an interval that is zero
    or negative the render never returns - at construction with
    [tickMajor = 0] or [tickMajor = -60], at [refresh] with
    [tickMinor = 0].  The general path of the same method, given the same
    intervals under the unit "px", returns and draws no major tick. *)
Theorem inch_branch_nonpositive_interval_hangs :
  never_returns (fun fuel =>
    snd (Hardcoded.constructor fuel (page 100 50 4) (box 100 50)
           (with_ticks "in" horizontal 0 30 10)))
  /\ never_returns (fun fuel =>
       snd (Hardcoded.constructor fuel (page 100 50 4) (box 100 50)
              (with_ticks "in" horizontal (-60) 30 10)))
  /\ never_returns (fun fuel =>
       snd (Hardcoded.refresh fuel (page 100 50 4)
              (instance "in" horizontal 60 0 10 100 30 60 (-1) (-1))))
  /\ exists out,
       snd (Hardcoded.constructor 100 (page 100 50 4) (box 100 50)
              (with_ticks "px" horizontal 0 30 10)) = Returned out
       /\ segments out
          = [((0, 0), (0, 10)); ((10, 0), (10, 5)); ((20, 0), (20, 5));
             ((30, 0), (30, 10)); ((40, 0), (40, 5)); ((50, 0), (50, 5));
             ((60, 0), (60, 10)); ((70, 0), (70, 5)); ((80, 0), (80, 5));
             ((90, 0), (90, 10))]
       /\ labels out = [].
Proof.
  split; [| split; [| split]].
  - intro fuel.
    apply (Hardcoded_inch_render_stuck
             (fst (Hardcoded.constructor 0 (page 100 50 4) (box 100 50)
                     (with_ticks "in" horizontal 0 30 10)))).
    + reflexivity.
    + left. apply Qle_bool_iff. reflexivity.
    + reflexivity.
  - intro fuel.
    apply (Hardcoded_inch_render_stuck
             (fst (Hardcoded.constructor 0 (page 100 50 4) (box 100 50)
                     (with_ticks "in" horizontal (-60) 30 10)))).
    + reflexivity.
    + left. apply Qle_bool_iff. reflexivity.
    + reflexivity.
  - intro fuel.
    apply (Hardcoded_inch_render_stuck
             (fst (Hardcoded.refresh 0 (page 100 50 4)
                     (instance "in" horizontal 60 0 10 100 30 60 (-1) (-1))))).
    + reflexivity.
    + right. left. apply Qle_bool_iff. reflexivity.
    + reflexivity.
  - eexists. split; [vm_compute; reflexivity |].
    split; vm_compute; reflexivity.
Qed.




(** C4, as amended.  Along every sequence of returned calls (construction,
    pointer-move, pointer-leave, refresh) the scale factor of the instance
    is positive in the constant copy, for every unit string and every page.
    In the measuring copy it is never negative; it is positive for every
    unit string that does not use the probe, and for every unit string when
    every page met had a 1mm probe of positive width. *)
Theorem scale_factor_positive :
  (forall this,
     reachable Hardcoded.getPixelsPerUnit Hardcoded.drawTicks
       Hardcoded.drawMousePosition any_page this ->
     0 < unitDiv this)
  /\ (forall this,
        reachable Measured.getPixelsPerUnit Measured.drawTicks
          Measured.drawMousePosition any_page this ->
        0 <= unitDiv this)
  /\ (forall this,
        reachable Measured.getPixelsPerUnit Measured.drawTicks
          Measured.drawMousePosition any_page this ->
        ~ In (unit (options this)) probe_units ->
        0 < unitDiv this)
  /\ (forall this,
        reachable Measured.getPixelsPerUnit Measured.drawTicks
          Measured.drawMousePosition probe_positive this ->
        0 < unitDiv this).
Proof.
  split; [| split; [| split]]; intros this R.
  - apply (reachable_scale _ _ _ _ (fun _ u => 0 < u)
             (fun dom this _ => Hardcoded_scale_positive dom this) this R).
  - apply (reachable_scale _ _ _ _ (fun _ u => 0 <= u)
             (fun dom this _ => Measured_scale_nonneg dom this) this R).
  - apply (reachable_scale _ _ _ _
             (fun o u => ~ In (unit o) probe_units -> 0 < u)
             (fun dom this _ => Measured_scale_unprobed_positive dom this)
             this R).
  - apply (reachable_scale _ _ _ _ (fun _ u => 0 < u)
             Measured_scale_positive this R).
Qed.

Lemma scale_factor_positive_witness :
  reachable Measured.getPixelsPerUnit Measured.drawTicks
    Measured.drawMousePosition probe_positive
    (fst (Measured.constructor 30 (page 120 80 4) (box 120 80)
            (with_ticks "cm" horizontal 50 10 5)))
  /\ 0 < unitDiv
           (fst (Measured.constructor 30 (page 120 80 4) (box 120 80)
                   (with_ticks "cm" horizontal 50 10 5))).
Proof.
  assert (R : reachable Measured.getPixelsPerUnit Measured.drawTicks
                Measured.drawMousePosition probe_positive
                (fst (Measured.constructor 30 (page 120 80 4) (box 120 80)
                        (with_ticks "cm" horizontal 50 10 5)))).
  { eapply (reach_constructor _ _ _ _ 30%nat (page 120 80 4) (box 120 80)
              (with_ticks "cm" horizontal 50 10 5)).
    - reflexivity.
    - lazy. reflexivity. }
  split; [exact R |].
  exact (proj2 (proj2 (proj2 scale_factor_positive)) _ R).
Defined.

(** C4 as stated fails in the measuring copy: built under the unit "mm" on
    a page where nothing is laid out (client width 0, probe width 0), the
    constructor returns an instance whose scale factor is 0. *)
Lemma zero_probe_zero_scale :
  reachable Measured.getPixelsPerUnit Measured.drawTicks
    Measured.drawMousePosition any_page
    (fst (Measured.constructor 0 (page 0 0 0) (box 0 0)
            (with_ticks "mm" horizontal 50 10 5)))
  /\ unitDiv (fst (Measured.constructor 0 (page 0 0 0) (box 0 0)
                     (with_ticks "mm" horizontal 50 10 5))) = 0
  /\ ~ 0 < unitDiv (fst (Measured.constructor 0 (page 0 0 0) (box 0 0)
                           (with_ticks "mm" horizontal 50 10 5))).
Proof.
  split; [| split].
  - eapply (reach_constructor _ _ _ _ 0%nat (page 0 0 0) (box 0 0)
              (with_ticks "mm" horizontal 50 10 5)).
    + exact I.
    + lazy. reflexivity.
  - reflexivity.
  - vm_compute. discriminate.
Qed.

(** C5, as amended.  For the units "px", "mm", "cm" and "in" the scale
    factor is 1, p, 10 p and 25.4 p, where p is the measured width of the
    1mm probe in the measuring copy and the constant 60 / 25.4 in the
    constant copy, which measures nothing. *)
Theorem scale_factor_by_unit dom this :
  In (unit (options this)) ["px"; "mm"; "cm"; "in"]%string ->
  Measured.getPixelsPerUnit dom this
    == spec_scale (calcPixelsPerMM dom) (unit (options this))
  /\ Hardcoded.getPixelsPerUnit dom this
     == spec_scale (60 / 25.4) (unit (options this)).
Proof.
  unfold Measured.getPixelsPerUnit, Hardcoded.getPixelsPerUnit, spec_scale.
  intros [U | [U | [U | [U | []]]]]; rewrite <- U; simpl; split;
    try reflexivity; ring.
Qed.

Lemma scale_factor_by_unit_witness :
  In (unit (options (instance "in" horizontal 60 30 10 100 30 60 0 0)))
    ["px"; "mm"; "cm"; "in"]%string
  /\ Measured.getPixelsPerUnit (page 100 50 4)
       (instance "in" horizontal 60 30 10 100 30 60 0 0) == 25.4 * 4
  /\ Hardcoded.getPixelsPerUnit (page 100 50 4)
       (instance "in" horizontal 60 30 10 100 30 60 0 0) == 25.4 * (60 / 25.4).
Proof.
  assert (U : In (unit (options (instance "in" horizontal 60 30 10 100 30 60 0 0)))
                ["px"; "mm"; "cm"; "in"]%string)
    by (simpl; tauto).
  split; [exact U |].
  exact (scale_factor_by_unit (page 100 50 4)
           (instance "in" horizontal 60 30 10 100 30 60 0 0) U).
Defined.

(** C5 as stated fails in the constant copy: with a probe 4 pixels wide the
    scale factor for "mm" is 60 / 25.4, not the measured 4. *)
Lemma constant_copy_ignores_probe :
  calcPixelsPerMM (page 100 50 4) == 4
  /\ Hardcoded.getPixelsPerUnit (page 100 50 4)
       (instance "mm" horizontal 50 10 5 100 30 1 0 0) == 60 / 25.4
  /\ ~ Hardcoded.getPixelsPerUnit (page 100 50 4)
         (instance "mm" horizontal 50 10 5 100 30 1 0 0)
       == spec_scale (calcPixelsPerMM (page 100 50 4)) "mm".
Proof.
  split; [reflexivity |]. split; [reflexivity |].
  vm_compute. discriminate.
Qed.




(** C7.  After a pointer-leave, in either copy and whatever the pointer
    state was, both tracked coordinates are the sentinel -1; the render the
    handler triggers is the clearing step followed by the ticks and nothing
    else; and no render of the instance it leaves draws the indicator. *)
Theorem pointer_leave_hides_indicator fuel this :
  (mouseX (fst (Measured.handleMouseLeave fuel this)) = -1
   /\ mouseY (fst (Measured.handleMouseLeave fuel this)) = -1
   /\ snd (Measured.handleMouseLeave fuel this)
      = (ticks <- tick_run Measured.drawTicks fuel
                    (fst (Measured.handleMouseLeave fuel this)) ;;
         Returned
           (clearRect 0 0 (width (size this)) (height (size this)) :: ticks))
   /\ (forall fuel' out,
         Measured.renderRuler fuel'
           (fst (Measured.handleMouseLeave fuel this)) = Returned out ->
         indicator_drawn out = false))
  /\ (mouseX (fst (Hardcoded.handleMouseLeave fuel this)) = -1
      /\ mouseY (fst (Hardcoded.handleMouseLeave fuel this)) = -1
      /\ snd (Hardcoded.handleMouseLeave fuel this)
         = (ticks <- tick_run Hardcoded.drawTicks fuel
                       (fst (Hardcoded.handleMouseLeave fuel this)) ;;
            Returned
              (clearRect 0 0 (width (size this)) (height (size this)) :: ticks))
      /\ (forall fuel' out,
            Hardcoded.renderRuler fuel'
              (fst (Hardcoded.handleMouseLeave fuel this)) = Returned out ->
            indicator_drawn out = false)).
Proof.
  split.
  - split; [reflexivity |]. split; [reflexivity |]. split.
    + unfold Measured.handleMouseLeave.
      rewrite mouseleave_render, mouseleave_state, render_shape.
      rewrite Measured_indicator_after_leave.
      destruct (tick_run Measured.drawTicks fuel (set_mouse this (-1) (-1)));
        simpl; try reflexivity.
      destruct (showMousePosition (options this)); rewrite app_nil_r;
        reflexivity.
    + intros fuel' out E.
      rewrite (render_indicator _ _ Measured_drawTicks_plain _ _ _ E).
      unfold Measured.handleMouseLeave. rewrite mouseleave_state.
      rewrite Measured_indicator_after_leave. apply andb_false_r.
  - split; [reflexivity |]. split; [reflexivity |]. split.
    + unfold Hardcoded.handleMouseLeave.
      rewrite mouseleave_render, mouseleave_state, render_shape.
      rewrite Hardcoded_indicator_after_leave.
      destruct (tick_run Hardcoded.drawTicks fuel (set_mouse this (-1) (-1)));
        simpl; try reflexivity.
      destruct (showMousePosition (options this)); rewrite app_nil_r;
        reflexivity.
    + intros fuel' out E.
      rewrite (render_indicator _ _ Hardcoded_drawTicks_plain _ _ _ E).
      unfold Hardcoded.handleMouseLeave. rewrite mouseleave_state.
      rewrite Hardcoded_indicator_after_leave. apply andb_false_r.
Qed.

Lemma pointer_leave_hides_indicator_witness :
  exists out,
    Measured.renderRuler 20
      (fst (Measured.handleMouseLeave 20
              (instance "px" horizontal 50 10 5 20 30 1 7 12)))
    = Returned out
    /\ out = [clearRect 0 0 20 30; beginPath; moveTo 0 0; lineTo 0 15;
              fillText "0" 2 25; moveTo 5 0; lineTo 5 5; moveTo 10 0;
              lineTo 10 10; moveTo 15 0; lineTo 15 5; stroke]
    /\ indicator_drawn out = false.
Proof.
  assert (E : Measured.renderRuler 20
                (fst (Measured.handleMouseLeave 20
                        (instance "px" horizontal 50 10 5 20 30 1 7 12)))
              = Returned
                  [clearRect 0 0 20 30; beginPath; moveTo 0 0; lineTo 0 15;
                   fillText "0" 2 25; moveTo 5 0; lineTo 5 5; moveTo 10 0;
                   lineTo 10 10; moveTo 15 0; lineTo 15 5; stroke])
    by (vm_compute; reflexivity).
  eexists. split; [exact E |]. split; [reflexivity |].
  exact (proj2 (proj2 (proj2 (proj1
           (pointer_leave_hides_indicator 20
              (instance "px" horizontal 50 10 5 20 30 1 7 12)))))
           20%nat _ E).
Defined.

(** C9.  On an unchanged page, [refresh] applied to the instance a first
    [refresh] left gives the same instance and the same outcome as that
    first call; and whatever fuel the two calls run on, if both return they
    have drawn the same commands. *)
Theorem refresh_idempotent fuel dom this :
  Measured.refresh fuel dom (fst (Measured.refresh fuel dom this))
    = Measured.refresh fuel dom this
  /\ Hardcoded.refresh fuel dom (fst (Hardcoded.refresh fuel dom this))
     = Hardcoded.refresh fuel dom this
  /\ (forall fuel' once twice,
        snd (Measured.refresh fuel dom this) = Returned once ->
        snd (Measured.refresh fuel' dom (fst (Measured.refresh fuel dom this)))
          = Returned twice ->
        twice = once)
  /\ (forall fuel' once twice,
        snd (Hardcoded.refresh fuel dom this) = Returned once ->
        snd (Hardcoded.refresh fuel' dom (fst (Hardcoded.refresh fuel dom this)))
          = Returned twice ->
        twice = once).
Proof.
  split; [| split; [| split]].
  - apply refresh_twice. exact Measured_scale_by_options.
  - apply refresh_twice. exact Hardcoded_scale_by_options.
  - intros fuel' once twice E1 E2.
    unfold Measured.refresh in *.
    rewrite (refresh_state_fuel _ _ _ fuel fuel') in E2.
    rewrite (refresh_twice _ _ _ Measured_scale_by_options) in E2.
    rewrite refresh_render in E1, E2.
    rewrite (refresh_state_fuel _ _ _ fuel' fuel) in E2.
    exact (render_deterministic _ _ Measured_drawTicks_deterministic
             _ _ _ _ _ E2 E1).
  - intros fuel' once twice E1 E2.
    unfold Hardcoded.refresh in *.
    rewrite (refresh_state_fuel _ _ _ fuel fuel') in E2.
    rewrite (refresh_twice _ _ _ Hardcoded_scale_by_options) in E2.
    rewrite refresh_render in E1, E2.
    rewrite (refresh_state_fuel _ _ _ fuel' fuel) in E2.
    exact (render_deterministic _ _ Hardcoded_drawTicks_deterministic
             _ _ _ _ _ E2 E1).
Qed.

Lemma refresh_idempotent_witness :
  exists out,
    snd (Measured.refresh 30 (page 20 80 4)
           (instance "px" horizontal 50 10 5 120 30 1 7 12)) = Returned out
    /\ snd (Measured.refresh 40 (page 20 80 4)
              (fst (Measured.refresh 30 (page 20 80 4)
                      (instance "px" horizontal 50 10 5 120 30 1 7 12))))
       = Returned out.
Proof.
  assert (E1 : exists out,
            snd (Measured.refresh 30 (page 20 80 4)
                   (instance "px" horizontal 50 10 5 120 30 1 7 12))
            = Returned out) by (eexists; vm_compute; reflexivity).
  assert (E2 : exists out,
            snd (Measured.refresh 40 (page 20 80 4)
                   (fst (Measured.refresh 30 (page 20 80 4)
                           (instance "px" horizontal 50 10 5 120 30 1 7 12))))
            = Returned out) by (eexists; vm_compute; reflexivity).
  destruct E1 as [once E1]. destruct E2 as [twice E2].
  exists once. split; [exact E1 |].
  rewrite E2. f_equal.
  exact (proj1 (proj2 (proj2
           (refresh_idempotent 30 (page 20 80 4)
              (instance "px" horizontal 50 10 5 120 30 1 7 12))))
           40%nat once twice E1 E2).
Defined.


(** * Further properties of the code *)

(** ** The two copies against each other *)




(** ** The pointer handlers *)



(** X3.  With showMousePosition off no call draws the cursor indicator, in
    either copy: a pointer-move that does not throw records the
    coordinates and draws nothing at all, and whatever construction,
    pointer-leave and refresh return has no indicator in it. *)
Theorem indicator_off_is_off fuel dom container opts event this :
  showMousePosition (options this) = false ->
  (forall rect,
     parentElement dom = Some rect ->
     Measured.handleMouseMove fuel dom event this
     = (set_mouse this (clientX event - rect_left rect)
          (clientY event - rect_top rect), Returned [])
     /\ Hardcoded.handleMouseMove fuel dom event this
        = (set_mouse this (clientX event - rect_left rect)
             (clientY event - rect_top rect), Returned []))
  /\ (forall out,
        snd (Measured.handleMouseLeave fuel this) = Returned out
        \/ snd (Measured.refresh fuel dom this) = Returned out
        \/ snd (Hardcoded.handleMouseLeave fuel this) = Returned out
        \/ snd (Hardcoded.refresh fuel dom this) = Returned out ->
        indicator_drawn out = false)
  /\ (showMousePosition (merge defaultOptions opts) = false ->
      forall out,
        snd (Measured.constructor fuel dom container opts) = Returned out
        \/ snd (Hardcoded.constructor fuel dom container opts) = Returned out ->
        indicator_drawn out = false).
Proof.
  intro Off. split; [| split].
  - intros rect P.
    unfold Measured.handleMouseMove, Hardcoded.handleMouseMove,
      handleMouseMove.
    rewrite P. cbn [options set_mouse]. rewrite Off. split; reflexivity.
  - intros out [E | [E | [E | E]]].
    + apply (render_indicator _ _ Measured_drawTicks_plain) in E.
      rewrite E. cbn [fst handleMouseLeave options set_mouse].
      rewrite Off. reflexivity.
    + unfold Measured.refresh in E. rewrite refresh_render in E.
      apply (render_indicator _ _ Measured_drawTicks_plain) in E.
      rewrite E, refresh_options, Off. reflexivity.
    + apply (render_indicator _ _ Hardcoded_drawTicks_plain) in E.
      rewrite E. cbn [fst handleMouseLeave options set_mouse].
      rewrite Off. reflexivity.
    + unfold Hardcoded.refresh in E. rewrite refresh_render in E.
      apply (render_indicator _ _ Hardcoded_drawTicks_plain) in E.
      rewrite E, refresh_options, Off. reflexivity.
  - intros Off' out [E | E].
    + apply (render_indicator _ _ Measured_drawTicks_plain) in E.
      rewrite E. cbn. cbn in Off'. rewrite Off'. reflexivity.
    + apply (render_indicator _ _ Hardcoded_drawTicks_plain) in E.
      rewrite E. cbn. cbn in Off'. rewrite Off'. reflexivity.
Qed.

Lemma indicator_off_is_off_witness :
  showMousePosition
    (options (without_indicator
                (instance "px" horizontal 50 10 5 20 30 1 7 12))) = false
  /\ Measured.handleMouseMove 20 (page 20 30 4)
       {| clientX := 9; clientY := 3 |}
       (without_indicator (instance "px" horizontal 50 10 5 20 30 1 7 12))
     = (set_mouse
          (without_indicator (instance "px" horizontal 50 10 5 20 30 1 7 12))
          (9 - 0) (3 - 0), Returned []).
Proof.
  assert (Off : showMousePosition
                  (options (without_indicator
                              (instance "px" horizontal 50 10 5 20 30 1 7 12)))
                = false) by reflexivity.
  split; [exact Off |].
  exact (proj1 (proj1 (indicator_off_is_off 20 (page 20 30 4) (box 20 30)
                         no_options {| clientX := 9; clientY := 3 |}
                         (without_indicator
                            (instance "px" horizontal 50 10 5 20 30 1 7 12))
                         Off)
                  (box 20 30) eq_refl)).
Defined.

(** ** Geometry *)

Section Geometry.

Variable getPixelsPerUnit : Dom -> Ruler -> Q.
Variable drawTicks :
  nat -> Ruler -> Orientation -> Q -> Q -> Q -> Q -> Q -> bool ->
  outcome (list command).
Variable drawMousePosition : Ruler -> list command.
Variable admissible : Dom -> Prop.

Hypothesis scale_by_options :
  forall dom a b, options a = options b ->
    getPixelsPerUnit dom a = getPixelsPerUnit dom b.





(** Construction followed at once by [refresh], on the same page. *)
Lemma construct_then_refresh fuel dom container opts :
  parentElement dom = Some container ->
  refresh getPixelsPerUnit drawTicks drawMousePosition fuel dom
    (fst (constructor getPixelsPerUnit drawTicks drawMousePosition
            fuel dom container opts))
  = constructor getPixelsPerUnit drawTicks drawMousePosition
      fuel dom container opts.
Proof.
  intro P. unfold refresh, constructor, initCanvas. cbn [fst].
  cbn [options size canvas set_unitDiv]. rewrite P.
  destruct (orientation (merge defaultOptions opts)) eqn:O;
    cbn [option_map JS.or_else width height];
    match goal with
    | |- context [JS.strict_eq ?x 0] => destruct (JS.strict_eq x 0)
    end;
    match goal with
    | |- (set_unitDiv ?s1 (getPixelsPerUnit dom ?s1), _)
         = (set_unitDiv ?s2 (getPixelsPerUnit dom ?s2), _) =>
        rewrite (scale_by_options dom s1 s2) by reflexivity
    end;
    reflexivity.
Qed.

End Geometry.



(** X5.  Construction followed at once by [refresh] on the same page, as
    in the section at the end of either copy, changes nothing: the refresh
    leaves the instance the constructor built and has the outcome of the
    constructor's own render. *)
Theorem refresh_after_construction_is_idle fuel dom container opts :
  parentElement dom = Some container ->
  Measured.refresh fuel dom
    (fst (Measured.constructor fuel dom container opts))
  = Measured.constructor fuel dom container opts
  /\ Hardcoded.refresh fuel dom
       (fst (Hardcoded.constructor fuel dom container opts))
     = Hardcoded.constructor fuel dom container opts.
Proof.
  intro P. split.
  - exact (construct_then_refresh _ _ _ Measured_scale_by_options
             fuel dom container opts P).
  - exact (construct_then_refresh _ _ _ Hardcoded_scale_by_options
             fuel dom container opts P).
Qed.

Lemma refresh_after_construction_is_idle_witness :
  parentElement (page 20 30 4) = Some (box 20 30)
  /\ Hardcoded.refresh 20 (page 20 30 4)
       (fst (Hardcoded.constructor 20 (page 20 30 4) (box 20 30)
               (with_ticks "in" horizontal 60 30 10)))
     = Hardcoded.constructor 20 (page 20 30 4) (box 20 30)
         (with_ticks "in" horizontal 60 30 10).
Proof.
  assert (P : parentElement (page 20 30 4) = Some (box 20 30))
    by reflexivity.
  split; [exact P |].
  exact (proj2 (refresh_after_construction_is_idle 20 (page 20 30 4)
                  (box 20 30) (with_ticks "in" horizontal 60 30 10) P)).
Defined.

(** X6.  The tracked coordinates start at (0, 0), which the measuring copy
    takes for a pointer position and the constant copy does not: when the
    constructor returns, the measuring copy has drawn the cursor indicator
    exactly when showMousePosition is on - before any pointer event - and
    the constant copy has not drawn it. *)
Theorem indicator_at_construction fuel dom container opts out :
  (snd (Measured.constructor fuel dom container opts) = Returned out ->
   indicator_drawn out = showMousePosition (merge defaultOptions opts))
  /\ (snd (Hardcoded.constructor fuel dom container opts) = Returned out ->
      indicator_drawn out = false).
Proof.
  split; intro E.
  - apply (render_indicator _ _ Measured_drawTicks_plain) in E.
    rewrite E. cbn [options set_unitDiv].
    destruct (showMousePosition (merge defaultOptions opts)); reflexivity.
  - apply (render_indicator _ _ Hardcoded_drawTicks_plain) in E.
    rewrite E. cbn [options set_unitDiv].
    destruct (showMousePosition (merge defaultOptions opts)); reflexivity.
Qed.

Lemma indicator_at_construction_witness :
  exists out,
    snd (Measured.constructor 20 (page 20 30 4) (box 20 30) no_options)
    = Returned out
    /\ indicator_drawn out = true.
Proof.
  assert (E : exists out,
            snd (Measured.constructor 20 (page 20 30 4) (box 20 30)
                   no_options) = Returned out)
    by (eexists; vm_compute; reflexivity).
  destruct E as [out E]. exists out. split; [exact E |].
  rewrite (proj1 (indicator_at_construction 20 (page 20 30 4) (box 20 30)
                    no_options out) E).
  reflexivity.
Defined.

(** ** Ticks and the canvas *)

Lemma positions_bounds start length step p :
  In p (spec_positions start length step) -> start <= p /\ p < length.
Proof.
  intro H.
  destruct (Qlt_le_dec 0 step) as [P | N].
  - destruct (In_nth_error _ _ H) as [k E].
    destruct (spec_positions_in_range _ _ _ _ _ E) as [V L].
    split; [| exact L].
    assert (K : 0 <= inject_Z (Z.of_nat k)).
    { change 0 with (inject_Z 0). rewrite <- Zle_Qle. lia. }
    assert (M : 0 <= inject_Z (Z.of_nat k) * step).
    { apply Qmult_le_0_compat; lra. }
    lra.
  - unfold spec_positions in H. rewrite (iterations_stuck _ _ _ N) in H.
    contradiction.
Qed.

Lemma tick_length_bounds (t : TickType) :
  0 <= tick_length t /\ tick_length t <= 15.
Proof. destruct t; split; apply Qle_bool_iff; reflexivity. Qed.

Lemma spec_ticks_in o length major minor micro start step s :
  In s (spec_ticks o length major minor micro start step) ->
  exists i t,
    s = tick_segment o i t
    /\ spec_tick_type major minor micro i = Some t
    /\ start <= i /\ i < length.
Proof.
  unfold spec_ticks. rewrite in_flat_map. intros [i [Hi Hs]].
  destruct (spec_tick_type major minor micro i) as [t |] eqn:T;
    [| contradiction].
  destruct Hs as [<- | []].
  exists i, t. destruct (positions_bounds _ _ _ _ Hi) as [A B].
  repeat split; assumption.
Qed.

(** X7.  On an instance whose geometry is as the class keeps it, with a
    thickness of at least 15 and a start offset of at least 0, no tick of
    the general tick path leaves the canvas: both ends of every tick that
    [drawTicks] has drawn, in either copy, lie on it.  Each tick starts on
    the baseline at a coordinate from the start offset up to, but
    excluding, the extent of the ruler. *)
Theorem ticks_stay_on_canvas this fuel out :
  geometry_ok this ->
  15 <= rulerThickness (options this) ->
  0 <= start_offset this ->
  tick_run Measured.drawTicks fuel this = Returned out
  \/ (unit (options this) <> "in"%string
      /\ tick_run Hardcoded.drawTicks fuel this = Returned out) ->
  forall a b,
    In (a, b) (segments out) ->
    on_canvas (canvas this) a /\ on_canvas (canvas this) b
    /\ start_offset this <= along_axis (orientation (options this)) a
    /\ along_axis (orientation (options this)) a
       < extent (orientation (options this)) (size this).
Proof.
  intros [W [H [C _]]] T S E a b I.
  assert (L : out = layout (orientation (options this))
                      (showLabel (options this))
                      (extent (orientation (options this)) (size this))
                      (tickMajor (options this)) (tickMinor (options this))
                      (tickMicro (options this)) (start_offset this)
                      (unitDiv this)).
  { unfold tick_run, start_offset, extent in *.
    destruct E as [E | [U E]];
      destruct (orientation (options this));
      rewrite ?Measured_drawTicks_general in E;
      rewrite ?Hardcoded_drawTicks_general in E by exact U;
      exact (general_path_returned _ _ _ _ _ _ _ _ _ _ E). }
  rewrite L, segments_layout in I.
  destruct (spec_ticks_in _ _ _ _ _ _ _ _ I) as [i [t [Es [_ [Lo Hi]]]]].
  destruct (tick_length_bounds t) as [T0 T15].
  unfold on_canvas. rewrite W, H.
  unfold tick_segment, cross, extent, start_offset, along_axis in *.
  destruct (orientation (options this)); injection Es as -> ->; cbn [fst snd];
    rewrite C in *; repeat split; lra.
Qed.

Lemma ticks_stay_on_canvas_witness :
  geometry_ok (instance "px" horizontal 50 10 5 20 30 1 0 0)
  /\ 15 <= rulerThickness
             (options (instance "px" horizontal 50 10 5 20 30 1 0 0))
  /\ 0 <= start_offset (instance "px" horizontal 50 10 5 20 30 1 0 0)
  /\ on_canvas (canvas (instance "px" horizontal 50 10 5 20 30 1 0 0)) (15, 5).
Proof.
  assert (G : geometry_ok (instance "px" horizontal 50 10 5 20 30 1 0 0)).
  { repeat split. exists 20%Z. reflexivity. }
  assert (T : 15 <= rulerThickness
                      (options (instance "px" horizontal 50 10 5 20 30 1 0 0)))
    by (apply Qle_bool_iff; reflexivity).
  assert (S : 0 <= start_offset (instance "px" horizontal 50 10 5 20 30 1 0 0))
    by (apply Qle_bool_iff; reflexivity).
  split; [exact G |]. split; [exact T |]. split; [exact S |].
  assert (E : tick_run Measured.drawTicks 20
                (instance "px" horizontal 50 10 5 20 30 1 0 0)
              = Returned
                  [beginPath; moveTo 0 0; lineTo 0 15; fillText "0" 2 25;
                   moveTo 5 0; lineTo 5 5; moveTo 10 0; lineTo 10 10;
                   moveTo 15 0; lineTo 15 5; stroke])
    by (vm_compute; reflexivity).
  apply (ticks_stay_on_canvas _ 20%nat _ G T S (or_introl E) (15, 0) (15, 5)).
  simpl. tauto.
Defined.

(** ** The branch for inches *)

Lemma segments_flat_map (f : Q -> list command) (g : Q -> list segment) :
  (forall i rest, segments (f i ++ rest) = g i ++ segments rest) ->
  forall ps rest,
    segments (flat_map f ps ++ rest) = flat_map g ps ++ segments rest.
Proof.
  intros F ps rest.
  induction ps as [| i ps IH]; simpl; [reflexivity |].
  rewrite <- !app_assoc, F, IH. reflexivity.
Qed.

Lemma labels_flat_map (f : Q -> list command)
    (g : Q -> list (string * (Q * Q))) :
  (forall i, labels (f i) = g i) ->
  forall ps, labels (flat_map f ps) = flat_map g ps.
Proof.
  intros F ps.
  induction ps as [| i ps IH]; simpl; [reflexivity |].
  rewrite labels_app, F, IH. reflexivity.
Qed.

Lemma flat_map_singletons {A B : Type} (h : A -> B) (ps : list A) :
  flat_map (fun i => [h i]) ps = map h ps.
Proof. induction ps as [| i ps IH]; simpl; [| rewrite IH]; reflexivity. Qed.

Lemma flat_map_filter {A B : Type} (c : A -> bool) (h : A -> B) (ps : list A) :
  flat_map (fun i => if c i then [h i] else []) ps = map h (filter c ps).
Proof.
  induction ps as [| i ps IH]; simpl; [reflexivity |].
  destruct (c i); simpl; rewrite IH; reflexivity.
Qed.

Lemma flat_map_nothing {A B : Type} (ps : list A) :
  flat_map (fun _ : A => @nil B) ps = [].
Proof. induction ps as [| i ps IH]; simpl; [| rewrite IH]; reflexivity. Qed.

Lemma not_multiple_iff (d i : Q) :
  ~ d == 0 -> (not_multiple d i = true <-> ~ evenly_divisible i d).
Proof.
  intro N. unfold not_multiple. rewrite negb_true_iff. split.
  - intros Hf Hd. apply (divides_b_iff d i N) in Hd.
    apply (rem_zero_iff i d N) in Hd. congruence.
  - intro Hn. destruct (JS.is_zero (JS.rem i d)) eqn:Z; [| reflexivity].
    exfalso. apply Hn. apply (divides_b_iff d i N).
    apply (rem_zero_iff i d N). exact Z.
Qed.

Lemma inch_branch_returns this o length major minor micro start showLabel fuel :
  unit (options this) = "in"%string ->
  0 < major -> 0 < minor -> 0 < micro ->
  (iterations start length major <= fuel)%nat ->
  (iterations start length minor <= fuel)%nat ->
  (iterations start length micro <= fuel)%nat ->
  exists out,
    Hardcoded.drawTicks fuel this o length major minor micro start showLabel
    = Returned out
    /\ segments out = inch_segments o length major minor micro start
    /\ labels out = inch_labels o length major start.
Proof.
  intros U P1 P2 P3 F1 F2 F3.
  unfold Hardcoded.drawTicks. apply String.eqb_eq in U. rewrite U.
  rewrite (for_loop_finishes _ length major P1 _ fuel start eq_refl F1).
  rewrite (for_loop_finishes _ length minor P2 _ fuel start eq_refl F2).
  rewrite (for_loop_finishes _ length micro P3 _ fuel start eq_refl F3).
  cbn [bind]. eexists. split; [reflexivity |].
  fold (spec_positions start length major).
  fold (spec_positions start length minor).
  fold (spec_positions start length micro).
  split.
  - unfold inch_segments.
    change (segments (beginPath :: ?l)) with (segments l).
    rewrite (segments_flat_map _ (fun i => [inch_major_segment o i]));
      [| intros i rest; destruct o; reflexivity].
    rewrite (segments_flat_map _
               (fun i => if not_multiple major i
                         then [tick_segment o i Minor] else []));
      [| intros i rest; unfold not_multiple;
         destruct (JS.is_zero (JS.rem i major)); destruct o; reflexivity].
    rewrite (segments_flat_map _
               (fun i => if not_multiple major i && not_multiple minor i
                         then [tick_segment o i Micro] else []));
      [| intros i rest; unfold not_multiple;
         destruct (JS.is_zero (JS.rem i major));
         destruct (JS.is_zero (JS.rem i minor)); destruct o; reflexivity].
    rewrite flat_map_singletons, !flat_map_filter.
    cbn [segments]. rewrite app_nil_r. reflexivity.
  - unfold inch_labels.
    change (labels (beginPath :: ?l)) with (labels l).
    rewrite !labels_app.
    rewrite (labels_flat_map _ (fun i => [inch_major_label o i]));
      [| intros i; destruct o; reflexivity].
    rewrite (labels_flat_map _ (fun _ => []));
      [| intros i; destruct (JS.is_zero (JS.rem i major)); destruct o;
         reflexivity].
    rewrite (labels_flat_map _ (fun _ => []));
      [| intros i; destruct (JS.is_zero (JS.rem i major));
         destruct (JS.is_zero (JS.rem i minor)); destruct o; reflexivity].
    rewrite flat_map_singletons, !flat_map_nothing.
    cbn [labels]. rewrite !app_nil_r. reflexivity.
Qed.



(** X9.  In the branch for inches the start coordinate is drawn twice when
    majorInterval does not divide it: with positive intervals and a start
    offset below the length, the drawing holds both the major tick and the
    minor tick at the start offset. *)
Theorem inch_branch_double_tick this o length major minor micro start
    showLabel fuel :
  unit (options this) = "in"%string ->
  0 < major -> 0 < minor -> 0 < micro ->
  (iterations start length major <= fuel)%nat ->
  (iterations start length minor <= fuel)%nat ->
  (iterations start length micro <= fuel)%nat ->
  start < length ->
  ~ evenly_divisible start major ->
  exists out,
    Hardcoded.drawTicks fuel this o length major minor micro start showLabel
    = Returned out
    /\ In (inch_major_segment o start) (segments out)
    /\ In (tick_segment o start Minor) (segments out).
Proof.
  intros U P1 P2 P3 F1 F2 F3 L N.
  destruct (inch_branch_returns this o length major minor micro start
              showLabel fuel U P1 P2 P3 F1 F2 F3) as [out [E [S _]]].
  exists out. split; [exact E |].
  rewrite S. unfold inch_segments, spec_positions.
  rewrite (iterations_step _ _ _ P1 L), (iterations_step _ _ _ P2 L).
  cbn [positions_from map filter].
  assert (K : not_multiple major start = true).
  { apply not_multiple_iff; [lra | exact N]. }
  rewrite K. split.
  - left. reflexivity.
  - apply in_or_app. right. apply in_or_app. left. left. reflexivity.
Qed.

Lemma inch_branch_double_tick_witness :
  exists out,
    Hardcoded.drawTicks 10 (instance "in" horizontal 60 30 10 100 30 60 0 0)
      horizontal 100 60 30 10 5 true = Returned out
    /\ In ((5, 0), (5, 15)) (segments out)
    /\ In ((5, 0), (5, 10)) (segments out).
Proof.
  apply (inch_branch_double_tick
           (instance "in" horizontal 60 30 10 100 30 60 0 0)
           horizontal 100 60 30 10 5 true 10%nat
           eq_refl eq_refl eq_refl eq_refl
           ltac:(vm_compute; lia) ltac:(vm_compute; lia)
           ltac:(vm_compute; lia) eq_refl).
  intros [k H]. unfold Qeq in H. simpl in H. lia.
Defined.

(** ** Numerals *)

Lemma Qfloor_unique (x : Q) (z : Z) :
  inject_Z z <= x -> x < inject_Z (z + 1) -> Qfloor x = z.
Proof.
  intros Lo Hi.
  pose proof (Qfloor_le x) as H1.
  pose proof (Qlt_floor x) as H2.
  assert (A : inject_Z z < inject_Z (Qfloor x + 1)) by lra.
  assert (B : inject_Z (Qfloor x) < inject_Z (z + 1)) by lra.
  rewrite <- Zlt_Qlt in A, B. lia.
Qed.

Lemma to_int_not_nil (z : Z) :
  Z.to_int z <> Decimal.Pos Decimal.Nil
  /\ Z.to_int z <> Decimal.Neg Decimal.Nil.
Proof.
  destruct z as [| p | p]; simpl; split; try discriminate;
    intro H; injection H as H; exact (Unsigned.to_uint_nonnil p H).
Qed.

Lemma decimal_injective (a b : Z) : JS.decimal a = JS.decimal b -> a = b.
Proof.
  unfold JS.decimal. intro H.
  apply (f_equal NilZero.int_of_string) in H.
  destruct (to_int_not_nil a) as [A1 A2].
  destruct (to_int_not_nil b) as [B1 B2].
  rewrite !NilZero.isi in H by assumption.
  injection H as H. exact (DecimalZ.to_int_inj _ _ H).
Qed.

Lemma decimal_negative (t : Z) :
  (0 < t)%Z -> JS.decimal (- t) = String "-"%char (JS.decimal t).
Proof.
  destruct t as [| p | p]; intro H; try lia. reflexivity.
Qed.

Lemma half_bounds : 0 < 1 / 2 /\ 1 / 2 < 1 /\ 1 / 2 + 1 / 2 == 1.
Proof. repeat split. Qed.

Lemma round_nearest_integer (z : Z) : round_nearest (inject_Z z) = z.
Proof.
  destruct half_bounds as [H0 [H1 _]].
  unfold round_nearest. apply Qfloor_unique.
  - lra.
  - rewrite inject_Z_plus. change (inject_Z 1) with 1. lra.
Qed.

Lemma inchLabel_round (i : Q) :
  0 <= i -> i / 60 < JS.pow10 21 ->
  Hardcoded.inchLabel i
  = (JS.decimal (round_nearest (i / 60)) ++ double_quote)%string.
Proof.
  intros P B. unfold Hardcoded.inchLabel.
  rewrite toFixed0_round by (try assumption; reflexivity).
  reflexivity.
Qed.

(** X10.  The labels of the branch for inches count in steps of 60 pixels,
    whatever majorInterval is: the label at the coordinate 60 k reads k
    followed by a double quote, and so does the label half a step before
    it, at 60 k - 30. *)
Theorem inch_labels_count_sixties (k : Z) :
  (1 <= k < 10 ^ 20)%Z ->
  Hardcoded.inchLabel (inject_Z (60 * k))
    = (JS.decimal k ++ double_quote)%string
  /\ Hardcoded.inchLabel (inject_Z (60 * k - 30))
     = (JS.decimal k ++ double_quote)%string.
Proof.
  intros [K1 K2]. destruct half_bounds as [H0 [H1 _]].
  assert (B : inject_Z k < JS.pow10 21).
  { assert (P : JS.pow10 21 == inject_Z (10 ^ 21)) by reflexivity.
    rewrite P. rewrite <- Zlt_Qlt. lia. }
  assert (K0 : 1 <= inject_Z k).
  { change 1 with (inject_Z 1). rewrite <- Zle_Qle. exact K1. }
  split.
  - rewrite inchLabel_round.
    + assert (E : inject_Z (60 * k) / 60 == inject_Z k).
      { rewrite inject_Z_mult. change (inject_Z 60) with 60. field. }
      unfold round_nearest.
      rewrite (Qfloor_comp _ (inject_Z k + 1 / 2)) by (rewrite E; reflexivity).
      fold (round_nearest (inject_Z k)).
      rewrite round_nearest_integer. reflexivity.
    + rewrite inject_Z_mult. change (inject_Z 60) with 60. lra.
    + rewrite inject_Z_mult. change (inject_Z 60) with 60.
      setoid_replace (60 * inject_Z k / 60) with (inject_Z k) by field.
      exact B.
  - assert (E : inject_Z (60 * k - 30) / 60 == inject_Z k - 1 / 2).
    { rewrite inject_Z_sub, inject_Z_mult.
      change (inject_Z 60) with 60. change (inject_Z 30) with 30. field. }
    rewrite inchLabel_round.
    + unfold round_nearest.
      rewrite (Qfloor_comp _ (inject_Z k)) by (rewrite E; ring).
      rewrite Qfloor_Z. reflexivity.
    + rewrite inject_Z_sub, inject_Z_mult.
      change (inject_Z 60) with 60. change (inject_Z 30) with 30. lra.
    + rewrite E. lra.
Qed.

Lemma inch_labels_count_sixties_witness :
  (1 <= 2 < 10 ^ 20)%Z
  /\ Hardcoded.inchLabel 120 = ("2" ++ double_quote)%string
  /\ Hardcoded.inchLabel 90 = ("2" ++ double_quote)%string.
Proof.
  assert (K : (1 <= 2 < 10 ^ 20)%Z) by (split; [lia | reflexivity]).
  split; [exact K |].
  exact (inch_labels_count_sixties 2 K).
Defined.

(** ** Tick labels and the cursor text *)

(** X11.  On the general tick path the label of a tick is the numeral of
    its coordinate in pixels, while the cursor text is the numeral of the
    coordinate divided by the scale factor.  For a pointer at the integer
    coordinate z, both tracked coordinates valid, and an integer scale
    factor u of at least 1, the measuring copy writes the axis name, the
    numeral of z / u rounded, and the unit; a tick label at z would read z.
    The two numerals are the same for u = 1 and differ for every u and z
    from 2 on. *)
Theorem cursor_counts_units_labels_count_pixels this z u :
  valid_from_zero this ->
  tracked this = inject_Z z ->
  unitDiv this = inject_Z u ->
  (1 <= u)%Z ->
  (z < 10 ^ 21)%Z ->
  map fst (labels (Measured.drawMousePosition this))
    = [(axis_name (orientation (options this))
        ++ JS.decimal (round_nearest (inject_Z z / inject_Z u))
        ++ unit (options this))%string]
  /\ fst (tick_label (orientation (options this)) (tracked this))
     = JS.decimal z
  /\ (u = 1%Z -> round_nearest (inject_Z z / inject_Z u) = z)
  /\ ((2 <= u)%Z -> (2 <= z)%Z ->
      JS.decimal (round_nearest (inject_Z z / inject_Z u)) <> JS.decimal z).
Proof.
  intros V T U U1 Z21. destruct half_bounds as [H0 [H1 _]].
  assert (Z0 : (0 <= z)%Z).
  { destruct V as [Vx Vy]. unfold tracked in T.
    rewrite Zle_Qle. change (inject_Z 0) with 0.
    destruct (orientation (options this)); rewrite <- T; assumption. }
  assert (Zq : 0 <= inject_Z z).
  { change 0 with (inject_Z 0). rewrite <- Zle_Qle. exact Z0. }
  assert (Uq : 1 <= inject_Z u).
  { change 1 with (inject_Z 1). rewrite <- Zle_Qle. exact U1. }
  assert (Q21 : inject_Z z < JS.pow10 21).
  { assert (P : JS.pow10 21 == inject_Z (10 ^ 21)) by reflexivity.
    rewrite P. rewrite <- Zlt_Qlt. exact Z21. }
  assert (D : inject_Z z / inject_Z u <= inject_Z z).
  { apply Qle_shift_div_r; [lra | nra]. }
  split; [| split; [| split]].
  - rewrite (Measured_indicator_valid this V).
    + unfold spec_indicator, spec_cursor_text. rewrite T, U.
      destruct (orientation (options this)); reflexivity.
    + rewrite U. lra.
    + rewrite T, U. lra.
  - rewrite T. unfold tick_label.
    rewrite toString_integer by lia.
    destruct (orientation (options this)); reflexivity.
  - intros ->. unfold round_nearest.
    rewrite (Qfloor_comp _ (inject_Z z + 1 / 2)).
    + fold (round_nearest (inject_Z z)). apply round_nearest_integer.
    + change (inject_Z 1) with 1. field.
  - intros U2 Z2 E. apply decimal_injective in E.
    assert (Uq2 : 2 <= inject_Z u).
    { change 2 with (inject_Z 2). rewrite <- Zle_Qle. exact U2. }
    assert (Zq2 : 2 <= inject_Z z).
    { change 2 with (inject_Z 2). rewrite <- Zle_Qle. exact Z2. }
    assert (H : inject_Z z / inject_Z u <= inject_Z z * (1 # 2)).
    { apply Qle_shift_div_r; [lra | nra]. }
    pose proof (Qfloor_le (inject_Z z / inject_Z u + 1 / 2)) as F.
    unfold round_nearest in E. rewrite E in F.
    assert (Half : 1 / 2 == 1 # 2) by reflexivity.
    rewrite Half in F. lra.
Qed.

Lemma cursor_counts_units_labels_count_pixels_witness :
  valid_from_zero (instance "mm" horizontal 50 10 5 300 30 4 100 12)
  /\ map fst (labels (Measured.drawMousePosition
                        (instance "mm" horizontal 50 10 5 300 30 4 100 12)))
     = ["X: 25mm"%string]
  /\ fst (tick_label horizontal 100) = "100"%string.
Proof.
  assert (V : valid_from_zero
                (instance "mm" horizontal 50 10 5 300 30 4 100 12))
    by (split; apply Qle_bool_iff; reflexivity).
  split; [exact V |].
  destruct (cursor_counts_units_labels_count_pixels
              (instance "mm" horizontal 50 10 5 300 30 4 100 12) 100 4
              V eq_refl eq_refl ltac:(lia) ltac:(reflexivity))
    as [A [B _]].
  split; [rewrite A; reflexivity | exact B].
Defined.

(** ** The page *)

Lemma append_fresh (children : list Node) (node : Node) :
  ~ In node children -> appendChild children node = children ++ [node].
Proof.
  intro F. unfold appendChild. rewrite (notin_remove _ _ _ F). reflexivity.
Qed.

Lemma remove_last (children : list Node) (node : Node) :
  ~ In node children ->
  remove Nat.eq_dec node (children ++ [node]) = children.
Proof.
  intro F. rewrite remove_app, (notin_remove _ _ _ F). simpl.
  destruct (Nat.eq_dec node node); [apply app_nil_r | contradiction].
Qed.

(** X12.  The page after construction, for a canvas node that was not a
    child of the container before and a thickness that is a positive
    integer t.  The canvas is the last child of the container and occurs
    once, whatever the placement: the second [appendChild] of the
    placement "inside" moves nothing.  Placed "outside", the canvas is
    positioned absolutely and shifted by minus the thickness - its top on a
    horizontal ruler, its left on a vertical one, the other offset left
    unset; placed "inside" its style is not touched. *)
Theorem canvas_placement this children canvas_node t :
  ~ In canvas_node children ->
  rulerThickness (options this) = inject_Z t ->
  (0 < t < 10 ^ 21)%Z ->
  snd (constructor_page this children canvas_node)
    = children ++ [canvas_node]
  /\ fst (constructor_page this children canvas_node)
     = match position (options this), orientation (options this) with
       | inside, _ => unstyled
       | outside, horizontal =>
           {| style_position := "absolute";
              style_top := ("-" ++ JS.decimal t ++ "px")%string;
              style_left := "" |}
       | outside, vertical =>
           {| style_position := "absolute";
              style_top := "";
              style_left := ("-" ++ JS.decimal t ++ "px")%string |}
       end.
Proof.
  intros F T [T0 T21].
  assert (S : JS.toString (- inject_Z t) = String "-"%char (JS.decimal t)).
  { rewrite <- inject_Z_opp, toString_integer by lia.
    apply decimal_negative. exact T0. }
  unfold constructor_page, setPosition. rewrite T, S.
  rewrite (append_fresh _ _ F).
  destruct (position (options this)), (orientation (options this));
    cbn [fst snd]; split; try reflexivity;
    unfold appendChild; rewrite (remove_last _ _ F); reflexivity.
Qed.

Lemma canvas_placement_witness :
  ~ In 7%nat [3; 5]%nat
  /\ constructor_page
       (fst (Measured.constructor 0 (page 0 0 4) (box 0 0)
               (with_ticks "px" vertical 50 10 5)))
       [3; 5]%nat 7%nat
     = ({| style_position := "absolute";
           style_top := "";
           style_left := "-30px" |}, [3; 5; 7]%nat).
Proof.
  assert (F : ~ In 7%nat [3; 5]%nat) by (simpl; lia).
  split; [exact F |].
  destruct (canvas_placement
              (fst (Measured.constructor 0 (page 0 0 4) (box 0 0)
                      (with_ticks "px" vertical 50 10 5)))
              [3; 5]%nat 7%nat 30 F eq_refl
              (conj eq_refl eq_refl)) as [A B].
  rewrite (surjective_pairing (constructor_page _ _ _)), A, B. reflexivity.
Defined.

(** X13.  [calcPixelsPerMM] leaves the body as it found it: the probe, a
    node that was not a child of the body, is appended and removed again,
    and the value read is the width the page gives to 1mm. *)
Theorem probe_leaves_no_trace dom body tempDiv :
  ~ In tempDiv body ->
  calcPixelsPerMM_page dom body tempDiv = (calcPixelsPerMM dom, body).
Proof.
  intro F. unfold calcPixelsPerMM_page, calcPixelsPerMM, removeChild.
  rewrite (append_fresh _ _ F), (remove_last _ _ F). reflexivity.
Qed.

Lemma probe_leaves_no_trace_witness :
  ~ In 9%nat [1; 2]%nat
  /\ calcPixelsPerMM_page (page 100 50 4) [1; 2]%nat 9%nat = (4, [1; 2]%nat).
Proof.
  assert (F : ~ In 9%nat [1; 2]%nat) by (simpl; lia).
  split; [exact F |].
  exact (probe_leaves_no_trace (page 100 50 4) [1; 2]%nat 9%nat F).
Defined.

(** ** A pointer-move, from the event to the drawing *)

(** X14.  A pointer-move over an attached canvas, with showMousePosition
    on, tracks the pointer in the coordinates of the container - the client
    coordinates less the origin of the container's rectangle - and redraws:
    when it returns, the measuring copy has drawn the ticks it would have
    drawn before the move and, for a pointer at or past the origin on both
    axes and a positive scale factor, the guide line and the text at the
    tracked coordinate. *)
Theorem pointer_move_draws_at_local_coordinate fuel dom event this rect out :
  parentElement dom = Some rect ->
  showMousePosition (options this) = true ->
  0 <= clientX event - rect_left rect ->
  0 <= clientY event - rect_top rect ->
  0 < unitDiv this ->
  tracked (fst (Measured.handleMouseMove fuel dom event this)) / unitDiv this
    < JS.pow10 21 ->
  snd (Measured.handleMouseMove fuel dom event this) = Returned out ->
  mouseX (fst (Measured.handleMouseMove fuel dom event this))
    = clientX event - rect_left rect
  /\ mouseY (fst (Measured.handleMouseMove fuel dom event this))
     = clientY event - rect_top rect
  /\ exists ticks,
       tick_run Measured.drawTicks fuel this = Returned ticks
       /\ out = clearRect 0 0 (width (size this)) (height (size this))
                :: ticks
                ++ spec_indicator
                     (fst (Measured.handleMouseMove fuel dom event this)).
Proof.
  intros P S X Y U B E.
  unfold Measured.handleMouseMove, handleMouseMove in *.
  rewrite P in *. cbn [options set_mouse] in *. rewrite S in *.
  cbn [fst snd] in *.
  split; [reflexivity |]. split; [reflexivity |].
  destruct (render_returned _ _ _ _ _ E) as [ticks [Et ->]].
  exists ticks. split; [exact Et |].
  cbn [options set_mouse size]. rewrite S.
  rewrite Measured_indicator_valid; [reflexivity | | exact U | exact B].
  split; assumption.
Qed.

Lemma pointer_move_draws_at_local_coordinate_witness :
  exists out,
    snd (Measured.handleMouseMove 20
           {| parentElement :=
                Some {| clientWidth := 20; clientHeight := 30;
                        rect_left := 100; rect_top := 40 |};
              offsetWidth := 4 |}
           {| clientX := 107; clientY := 52 |}
           (instance "px" horizontal 50 10 5 20 30 1 0 0))
    = Returned out
    /\ labels out
       = [("0"%string, (2, 25)); ("X: 7px"%string, (107 - 100 + 5, 15))].
Proof.
  assert (E : exists out,
            snd (Measured.handleMouseMove 20
                   {| parentElement :=
                        Some {| clientWidth := 20; clientHeight := 30;
                                rect_left := 100; rect_top := 40 |};
                      offsetWidth := 4 |}
                   {| clientX := 107; clientY := 52 |}
                   (instance "px" horizontal 50 10 5 20 30 1 0 0))
            = Returned out) by (eexists; vm_compute; reflexivity).
  destruct E as [out E]. exists out. split; [exact E |].
  destruct (pointer_move_draws_at_local_coordinate 20
              {| parentElement :=
                   Some {| clientWidth := 20; clientHeight := 30;
                           rect_left := 100; rect_top := 40 |};
                 offsetWidth := 4 |}
              {| clientX := 107; clientY := 52 |}
              (instance "px" horizontal 50 10 5 20 30 1 0 0)
              {| clientWidth := 20; clientHeight := 30;
                 rect_left := 100; rect_top := 40 |}
              out
              eq_refl eq_refl
              ltac:(apply Qle_bool_iff; reflexivity)
              ltac:(apply Qle_bool_iff; reflexivity)
              eq_refl eq_refl E) as [_ [_ [ticks [Et ->]]]].
  assert (T : ticks = [beginPath; moveTo 0 0; lineTo 0 15; fillText "0" 2 25;
                       moveTo 5 0; lineTo 5 5; moveTo 10 0; lineTo 10 10;
                       moveTo 15 0; lineTo 15 5; stroke]).
  { assert (C : tick_run Measured.drawTicks 20
                  (instance "px" horizontal 50 10 5 20 30 1 0 0)
                = Returned
                    [beginPath; moveTo 0 0; lineTo 0 15; fillText "0" 2 25;
                     moveTo 5 0; lineTo 5 5; moveTo 10 0; lineTo 10 10;
                     moveTo 15 0; lineTo 15 5; stroke])
      by (vm_compute; reflexivity).
    rewrite C in Et. injection Et as <-. reflexivity. }
  rewrite T. vm_compute. reflexivity.
Defined.

(** ** An option that is never read *)

(** X15.  The option arrowStyle is read by no method: an instance that
    differs in it alone has the same scale factor and issues the same
    drawing commands, in either copy, at a render, a pointer-move, a
    pointer-leave and a refresh. *)
Theorem arrowStyle_is_dead fuel dom event this style :
  Measured.getPixelsPerUnit dom (with_arrowStyle this style)
    = Measured.getPixelsPerUnit dom this
  /\ Hardcoded.getPixelsPerUnit dom (with_arrowStyle this style)
     = Hardcoded.getPixelsPerUnit dom this
  /\ Measured.renderRuler fuel (with_arrowStyle this style)
     = Measured.renderRuler fuel this
  /\ Hardcoded.renderRuler fuel (with_arrowStyle this style)
     = Hardcoded.renderRuler fuel this
  /\ snd (Measured.handleMouseMove fuel dom event (with_arrowStyle this style))
     = snd (Measured.handleMouseMove fuel dom event this)
  /\ snd (Hardcoded.handleMouseMove fuel dom event (with_arrowStyle this style))
     = snd (Hardcoded.handleMouseMove fuel dom event this)
  /\ snd (Measured.handleMouseLeave fuel (with_arrowStyle this style))
     = snd (Measured.handleMouseLeave fuel this)
  /\ snd (Hardcoded.handleMouseLeave fuel (with_arrowStyle this style))
     = snd (Hardcoded.handleMouseLeave fuel this)
  /\ snd (Measured.refresh fuel dom (with_arrowStyle this style))
     = snd (Measured.refresh fuel dom this)
  /\ snd (Hardcoded.refresh fuel dom (with_arrowStyle this style))
     = snd (Hardcoded.refresh fuel dom this).
Proof.
  split; [reflexivity |]. split; [reflexivity |].
  split; [reflexivity |]. split; [reflexivity |].
  split.
  { unfold Measured.handleMouseMove, handleMouseMove.
    destruct (parentElement dom); [| reflexivity].
    cbn [set_mouse with_arrowStyle options showMousePosition].
    destruct (showMousePosition (options this)); reflexivity. }
  split.
  { unfold Hardcoded.handleMouseMove, handleMouseMove.
    destruct (parentElement dom); [| reflexivity].
    cbn [set_mouse with_arrowStyle options showMousePosition].
    destruct (showMousePosition (options this)); reflexivity. }
  split; [reflexivity |]. split; [reflexivity |].
  split.
  { unfold Measured.refresh, refresh. cbn [with_arrowStyle options].
    destruct (orientation (options this)); reflexivity. }
  unfold Hardcoded.refresh, refresh. cbn [with_arrowStyle options].
  destruct (orientation (options this)); reflexivity.
Qed.
